(** * VLSM subnet table: the allocation loop of [vlsm_table.py]

    A shallow embedding of [skuska], the single function of the program:
    it reads a parent network and a list of host counts, sorts the host
    counts in descending order and walks a cursor ([current_ip]) over the
    parent's address space, giving each host count the block found by
    [(requested_hosts + 1).bit_length()].

    The program sits on Python's [ipaddress] module.  The part of that
    module the function uses is embedded in [Module ipaddress] below, for
    IPv4: addresses are integers in [0, 2^32), a network is a network
    address with a prefix length, and the masks are computed with the bit
    operations the library uses.  Strings printed by [str] are kept as the
    values they print. *)

From Stdlib Require Import ZArith List Bool Ascii String Lia.
From Stdlib Require Import Permutation Sorted.
Import ListNotations.

Local Open Scope Z_scope.

(** ** Python integers *)

(** [int.bit_length()]: the number of bits of the absolute value, 0 for 0. *)
Definition bit_length (n : Z) : Z :=
  match n with
  | Z0 => 0
  | Zpos p | Zneg p => Z.log2 (Zpos p) + 1
  end.

(** [range(a, b)] on integers, as the list it iterates over. *)
Definition range (a b : Z) : list Z :=
  map (fun i => a + Z.of_nat i) (seq 0 (Z.to_nat (b - a))).

(** [len] of a list, as a Python integer. *)
Definition len {A} (l : list A) : Z := Z.of_nat (List.length l).

(** ** The part of [ipaddress] the program uses (IPv4) *)

Module ipaddress.

Definition max_prefixlen : Z := 32.

(** [IPv4Address._ALL_ONES] *)
Definition ALL_ONES : Z := 2 ^ 32 - 1.

(** [IPv4Address(n)] on an integer: [_check_int_address] raises
    [AddressValueError] (a [ValueError]) outside [0, 2^32). *)
Definition IPv4Address (n : Z) : option Z :=
  if (n <? 0) || (ALL_ONES <? n) then None else Some n.

(** [address + k] and [address - k] build a new address from the sum. *)
Definition address_add (a k : Z) : option Z := IPv4Address (a + k).
Definition address_sub (a k : Z) : option Z := IPv4Address (a - k).

Record IPv4Network : Type := mkNetwork {
  network_address : Z;
  prefixlen : Z
}.

(** [_make_netmask]: [ALL_ONES ^ (ALL_ONES >> prefixlen)] *)
Definition netmask_of (p : Z) : Z :=
  Z.lxor ALL_ONES (Z.shiftr ALL_ONES p).

Definition netmask (n : IPv4Network) : Z := netmask_of (prefixlen n).

(** [hostmask]: [int(netmask) ^ ALL_ONES] *)
Definition hostmask (n : IPv4Network) : Z := Z.lxor (netmask n) ALL_ONES.

(** [ip_network(f"{a}/{p}", strict=False)] for an IPv4 address [a] and a
    prefix length [p]: a [ValueError] ([None]) when the address or the
    prefix is out of range, otherwise the host bits of the address are
    cleared with the netmask. *)
Definition ip_network (a p : Z) : option IPv4Network :=
  match IPv4Address a with
  | None => None
  | Some a' =>
      if (p <? 0) || (max_prefixlen <? p) then None
      else Some (mkNetwork (Z.land a' (netmask_of p)) p)
  end.

(** [broadcast_address]: [network_address | hostmask] *)
Definition broadcast_address (n : IPv4Network) : Z :=
  Z.lor (network_address n) (hostmask n).

(** [num_addresses]: [broadcast_address - network_address + 1] *)
Definition num_addresses (n : IPv4Network) : Z :=
  broadcast_address n - network_address n + 1.

(** [hosts()]: the addresses strictly between the network and the
    broadcast address; a /31 yields both of its addresses (the library
    rebinds [hosts] to [__iter__] there) and a /32 its single address. *)
Definition hosts (n : IPv4Network) : list Z :=
  if prefixlen n =? max_prefixlen - 1 then
    range (network_address n) (broadcast_address n + 1)
  else if prefixlen n =? max_prefixlen then
    [network_address n]
  else
    range (network_address n + 1) (broadcast_address n).

End ipaddress.
Import ipaddress.

(** ** Text of the host list (lines 24 and 38-47)

    A Python [str] is modelled by a [string] whose characters are read as
    the code points below 256. *)

Definition code (c : ascii) : Z := Z.of_N (N_of_ascii c).

(** [str.isspace] on one character: tab to carriage return, the four
    separators 0x1c-0x1f, space, NEL and the no-break space. *)
Definition isspace (c : ascii) : bool :=
  let n := code c in
  ((9 <=? n) && (n <=? 13)) || ((28 <=? n) && (n <=? 32))
  || (n =? 133) || (n =? 160).

Fixpoint lstrip (s : string) : string :=
  match s with
  | EmptyString => EmptyString
  | String c s' => if isspace c then lstrip s' else s
  end.

Fixpoint rstrip (s : string) : string :=
  match s with
  | EmptyString => EmptyString
  | String c s' =>
      match rstrip s' with
      | EmptyString => if isspace c then EmptyString else String c EmptyString
      | t => String c t
      end
  end.

(** [s.strip()] *)
Definition strip (s : string) : string := rstrip (lstrip s).

(** [s.replace(',', '\n')] *)
Fixpoint replace_commas (s : string) : string :=
  match s with
  | EmptyString => EmptyString
  | String c s' =>
      String (if Ascii.eqb c ","%char then "010"%char else c) (replace_commas s')
  end.

(** The line boundaries of [str.splitlines] other than the pair CR LF. *)
Definition is_linebreak (c : ascii) : bool :=
  let n := code c in
  ((10 <=? n) && (n <=? 13)) || ((28 <=? n) && (n <=? 30)) || (n =? 133).

(** [s.splitlines()]: [line] is the line being read, last character first.
    CR LF is one boundary, and a boundary at the very end opens no line. *)
Fixpoint splitlines_from (line : list ascii) (s : string) : list string :=
  match s with
  | EmptyString =>
      match line with
      | [] => []
      | _ => [string_of_list_ascii (rev line)]
      end
  | String c s' =>
      if Ascii.eqb c "013"%char then
        match s' with
        | String "010"%char s'' =>
            string_of_list_ascii (rev line) :: splitlines_from [] s''
        | _ => string_of_list_ascii (rev line) :: splitlines_from [] s'
        end
      else if is_linebreak c then
        string_of_list_ascii (rev line) :: splitlines_from [] s'
      else splitlines_from (c :: line) s'
  end.

Definition splitlines (s : string) : list string := splitlines_from [] s.

Definition digit (c : ascii) : option Z :=
  let n := code c in
  if (48 <=? n) && (n <=? 57) then Some (n - 48) else None.

(** The digits of a decimal literal after its first digit: a single
    underscore may stand between two digits. *)
Fixpoint digits (acc : Z) (s : string) : option Z :=
  match s with
  | EmptyString => Some acc
  | String c s' =>
      if Ascii.eqb c "_"%char then
        match s' with
        | String d s'' =>
            match digit d with
            | Some v => digits (10 * acc + v) s''
            | None => None
            end
        | EmptyString => None
        end
      else
        match digit c with
        | Some v => digits (10 * acc + v) s'
        | None => None
        end
  end.

Definition unsigned (s : string) : option Z :=
  match s with
  | String c s' =>
      match digit c with
      | Some v => digits v s'
      | None => None
      end
  | EmptyString => None
  end.

(** [int(s)] in base 10: surrounding white space, an optional sign, then
    the digits; [None] stands for [ValueError].  (The limit on the number
    of digits of recent interpreters is left out.) *)
Definition int (s : string) : option Z :=
  match strip s with
  | String "+"%char s' => unsigned s'
  | String "-"%char s' => option_map Z.opp (unsigned s')
  | s' => unsigned s'
  end.

(** A list comprehension over a conversion that may raise. *)
Fixpoint map_raise {A B} (f : A -> option B) (l : list A) : option (list B) :=
  match l with
  | [] => Some []
  | x :: l' =>
      match f x with
      | None => None
      | Some y =>
          match map_raise f l' with
          | None => None
          | Some ys => Some (y :: ys)
          end
      end
  end.

Definition nonempty (s : string) : bool :=
  match s with EmptyString => false | _ => true end.

(** Line 40:
    [[int(h.strip()) for h in hosts_raw.replace(',', '\n').splitlines()
      if h.strip()]] *)
Definition parse_hosts (hosts_raw : string) : option (list Z) :=
  map_raise (fun h => int (strip h))
    (filter (fun h => nonempty (strip h))
       (splitlines (replace_commas hosts_raw))).

(** Line 44: [hosts_list.sort(reverse=True)], a stable sort in descending
    order: an element goes before the first one that is not greater. *)
Fixpoint insert_desc (x : Z) (l : list Z) : list Z :=
  match l with
  | [] => [x]
  | y :: l' => if y <=? x then x :: l else y :: insert_desc x l'
  end.

Fixpoint sort_desc (l : list Z) : list Z :=
  match l with
  | [] => []
  | x :: l' => insert_desc x (sort_desc l')
  end.

(** ** The result table and the message boxes *)

(** A host cell of the table: the text ['N/A'] or [str] of an address. *)
Inductive host_cell : Type :=
| NA
| Host (a : Z).

(** One dictionary appended to [results] (lines 109-117).  The column
    ['Net IP + prefix'] is kept as the network it prints. *)
Record row : Type := mkRow {
  Requested : Z;
  Net_IP_prefix : IPv4Network;
  Mask : Z;
  First_host : host_cell;
  Last_host : host_cell;
  Broadcast : Z;
  Usable_IP : Z
}.

(** The calls of [messagebox.showerror], by the line that makes them. *)
Inductive message : Type :=
| Input_error_missing                                   (* line 27 *)
| Input_error_network                                   (* line 35 *)
| Input_error_hosts                                     (* line 46 *)
| Input_error_no_hosts                                  (* line 50 *)
| Allocation_error_space (requested_hosts : Z)          (* line 64 *)
| Prefix_error (requested_hosts new_prefix parent_prefix : Z) (* line 76 *)
| Allocation_error_boundary (requested_hosts : Z) (new_subnet : IPv4Network)
                                                        (* line 88 *)
| Calculation_error.                                    (* line 123 *)

(** The variables the loop updates. *)
Record state : Type := mkState {
  results : list row;
  current_ip : Z
}.

(** How one pass through the loop body ends: at its last statement, at a
    [break] after a message, or at the [return] of the prefix check. *)
Inductive flow : Type :=
| Continue (s : state)
| Break (m : message) (s : state)
| Return (m : message).

(** Lines 68-72. *)
Definition bits_needed (requested_hosts : Z) : Z :=
  bit_length (requested_hosts + 1).

Definition new_prefix (requested_hosts : Z) : Z :=
  32 - bits_needed requested_hosts.

(** Lines 93-117: the dictionary for [new_subnet], given the two host
    addresses already computed. *)
Definition make_row (requested_hosts : Z) (new_subnet : IPv4Network)
    (first_host last_host : Z) : row :=
  let usable_ips := len (hosts new_subnet) in
  if usable_ips <? 1 then
    mkRow requested_hosts new_subnet (netmask new_subnet) NA NA
      (broadcast_address new_subnet) 0
  else
    mkRow requested_hosts new_subnet (netmask new_subnet)
      (Host first_host) (Host last_host)
      (broadcast_address new_subnet) usable_ips.

(** Lines 59-124, one pass.  A [ValueError] inside the [try] block shows
    the calculation error and breaks; the one that [broadcast_address + 1]
    can raise on line 120 comes after the [append]. *)
Definition body (current_network : IPv4Network) (requested_hosts : Z)
    (s : state) : flow :=
  if num_addresses current_network <? requested_hosts + 2 then
    Break (Allocation_error_space requested_hosts) s
  else if new_prefix requested_hosts <? prefixlen current_network then
    Return (Prefix_error requested_hosts (new_prefix requested_hosts)
              (prefixlen current_network))
  else
    match ip_network (current_ip s) (new_prefix requested_hosts) with
    | None => Break Calculation_error s
    | Some new_subnet =>
        if broadcast_address current_network <? broadcast_address new_subnet
        then Break (Allocation_error_boundary requested_hosts new_subnet) s
        else
          match address_add (network_address new_subnet) 1 with
          | None => Break Calculation_error s
          | Some first_host =>
              match address_sub (broadcast_address new_subnet) 1 with
              | None => Break Calculation_error s
              | Some last_host =>
                  let results' :=
                    results s
                    ++ [make_row requested_hosts new_subnet
                          first_host last_host] in
                  match address_add (broadcast_address new_subnet) 1 with
                  | None =>
                      Break Calculation_error
                        (mkState results' (current_ip s))
                  | Some ip' => Continue (mkState results' ip')
                  end
              end
          end
    end.

(** How the [for] statement ends: it falls through to line 128, after a
    message when it was left by [break], or the function has returned. *)
Inductive loop_end : Type :=
| Fell (m : option message) (s : state)
| Returned (m : message).

Fixpoint for_loop (current_network : IPv4Network) (hosts_list : list Z)
    (s : state) : loop_end :=
  match hosts_list with
  | [] => Fell None s
  | requested_hosts :: rest =>
      match body current_network requested_hosts s with
      | Continue s' => for_loop current_network rest s'
      | Break m s' => Fell (Some m) s'
      | Return m => Returned m
      end
  end.

(** A row of the table shown in the result window: a dictionary of
    [results], or the single row of ['N/A'] cells that lines 143-153 put
    in place of an empty table. *)
Inductive table_row : Type :=
| Record_row (r : row)
| Error_row.

(** Lines 135-153. *)
Definition dataframe (results : list row) : list table_row :=
  match results with
  | [] => [Error_row]
  | _ => map Record_row results
  end.

(** What one click delivers: a message box and nothing else, or the
    result window with its table, after a message box when the loop was
    left by [break]. *)
Inductive outcome : Type :=
| No_table (m : message)
| Table (m : option message) (df : list table_row).

(** The state in which the loop is entered (lines 53-56). *)
Definition initial (current_network : IPv4Network) : state :=
  mkState [] (network_address current_network).

(** Lines 49-159, from the sorted list on. *)
Definition vlsm (current_network : IPv4Network) (hosts_list : list Z)
    : outcome :=
  match hosts_list with
  | [] => No_table Input_error_no_hosts
  | _ =>
      match for_loop current_network hosts_list (initial current_network) with
      | Returned m => No_table m
      | Fell m s => Table m (dataframe (results s))
      end
  end.

(** The run on a parsed list of host counts: line 44, then lines 49-159. *)
Definition allocate (current_network : IPv4Network) (hosts : list Z)
    : outcome :=
  vlsm current_network (sort_desc hosts).

(** What the entry widget holds once stripped, as [ipaddress] reads it:
    nothing, a text it rejects, or an IPv4 address (as an integer) with a
    prefix length.  A text that [ipaddress] reads as an IPv6 network has
    no constructor: the model, like the program's arithmetic on line 72,
    is about 32-bit addresses, and every statement below about a parent
    network is about an [IPv4Network]. *)
Inductive ip_text : Type :=
| Blank
| Malformed
| Cidr (a p : Z).

(** The whole function; [hosts_text] is the content of the text widget. *)
Definition skuska (ip_input : ip_text) (hosts_text : string) : outcome :=
  let hosts_raw := strip hosts_text in
  match ip_input, hosts_raw with
  | Blank, _ | _, EmptyString => No_table Input_error_missing
  | Malformed, _ => No_table Input_error_network
  | Cidr a p, _ =>
      match ip_network a p with
      | None => No_table Input_error_network
      | Some current_network =>
          match parse_hosts hosts_raw with
          | None => No_table Input_error_hosts
          | Some hosts_list => allocate current_network hosts_list
          end
      end
  end.

(** ** Words of the specification over the model *)

(** Addresses left in the parent from the cursor to its broadcast address,
    both included. *)
Definition remaining (current_network : IPv4Network) (cursor : Z) : Z :=
  broadcast_address current_network - cursor + 1.

(** Number of addresses of a block with [bits] host bits. *)
Definition block_size (bits : Z) : Z := 2 ^ bits.

(** A network as [ip_network] builds it: the prefix length in range, the
    network address a multiple of the block size, the block inside the
    32-bit address space. *)
Definition well_formed (n : IPv4Network) : Prop :=
  0 <= prefixlen n <= 32
  /\ 0 <= network_address n
  /\ (block_size (32 - prefixlen n) | network_address n)
  /\ network_address n + block_size (32 - prefixlen n) <= 2 ^ 32.

(** The states the loop passes through: [reaches P s0 l0 s l] when, started
    in [s0] on the list [l0], the loop stands in state [s] with [l] still
    to process. *)
Inductive reaches (current_network : IPv4Network) (s0 : state)
    (l0 : list Z) : state -> list Z -> Prop :=
| reaches_start : reaches current_network s0 l0 s0 l0
| reaches_next s r l s' :
    reaches current_network s0 l0 s (r :: l) ->
    body current_network r s = Continue s' ->
    reaches current_network s0 l0 s' l.

(** The range of a table row, from its network address to its broadcast
    address, holds the address [a]. *)
Definition covers (r : row) (a : Z) : Prop :=
  network_address (Net_IP_prefix r) <= a <= Broadcast r.

(** Two table rows overlap when some address lies in both ranges. *)
Definition overlap (r1 r2 : row) : Prop :=
  exists a, covers r1 a /\ covers r2 a.

(** The rows are packed from [start]: each network address is the address
    after the broadcast address of the row before. *)
Fixpoint packed_from (start : Z) (rows : list row) : Prop :=
  match rows with
  | [] => True
  | r :: rows' =>
      network_address (Net_IP_prefix r) = start
      /\ packed_from (Broadcast r + 1) rows'
  end.

(** The address after the last row of a packed table. *)
Fixpoint cursor_after (start : Z) (rows : list row) : Z :=
  match rows with
  | [] => start
  | r :: rows' => cursor_after (Broadcast r + 1) rows'
  end.

(** The subnet line 84 builds in state [s] for [requested_hosts], when the
    pass gets that far. *)
Definition candidate (current_network : IPv4Network) (requested_hosts : Z)
    (s : state) : option IPv4Network :=
  if num_addresses current_network <? requested_hosts + 2 then None
  else if new_prefix requested_hosts <? prefixlen current_network then None
  else ip_network (current_ip s) (new_prefix requested_hosts).

(** The cursor is a multiple of the block size of every host count of [l]
    that passes the guard of line 63. *)
Definition aligned_for (current_network : IPv4Network) (cursor : Z)
    (l : list Z) : Prop :=
  forall r, In r l -> r + 2 <= num_addresses current_network ->
            (block_size (bits_needed r) | cursor).

(** A table row lies inside the parent network. *)
Definition row_within (current_network : IPv4Network) (r : row) : Prop :=
  network_address current_network <= network_address (Net_IP_prefix r)
  /\ network_address (Net_IP_prefix r) <= Broadcast r
  /\ Broadcast r = broadcast_address (Net_IP_prefix r)
  /\ Broadcast r <= broadcast_address current_network.

(** A table row as lines 93-117 fill it for the subnet in its second
    column. *)
Definition row_made (r : row) : Prop :=
  let n := Net_IP_prefix r in
  well_formed n
  /\ prefixlen n = new_prefix (Requested r)
  /\ r = make_row (Requested r) n (network_address n + 1)
           (broadcast_address n - 1).

(** What a pass that reaches its last statement has done. *)
Record pass (P : IPv4Network) (r : Z) (s s' : state) (n : IPv4Network)
    : Prop := mkPass {
  pass_space : r + 2 <= num_addresses P;
  pass_prefix : prefixlen P <= new_prefix r;
  pass_subnet : ip_network (current_ip s) (new_prefix r) = Some n;
  pass_boundary : broadcast_address n <= broadcast_address P;
  pass_results :
    results s' =
    results s ++ [make_row r n (network_address n + 1)
                    (broadcast_address n - 1)];
  pass_cursor : current_ip s' = broadcast_address n + 1;
  pass_cursor_range : current_ip s' < 2 ^ 32
}.

(** What holds in every state of a run on a descending list [L] of host
    counts that are not negative: the rows made so far are those of the
    host counts already processed, they are packed from the parent's
    network address up to the cursor, and the cursor is aligned for the
    host counts still to come. *)
Record run_inv (P : IPv4Network) (L : list Z) (s : state) (l : list Z)
    : Prop := mkInv {
  inv_done : L = map Requested (results s) ++ l;
  inv_aligned : aligned_for P (current_ip s) l;
  inv_packed : packed_from (network_address P) (results s);
  inv_cursor : cursor_after (network_address P) (results s) = current_ip s
}.

(** The addresses the blocks of the host counts of [l] take together. *)
Fixpoint total_blocks (l : list Z) : Z :=
  match l with
  | [] => 0
  | r :: l' => block_size (bits_needed r) + total_blocks l'
  end.


(** The entries of the host list that line 40 converts: the lines of the
    text, stripped, without the empty ones. *)
Definition tokens_from (line : list ascii) (s : string) : list string :=
  filter (fun h => nonempty (strip h)) (splitlines_from line s).

(** What [splitlines] goes on with after a carriage return: a line feed
    that follows belongs to the same boundary. *)
Definition skip_lf (s : string) : string :=
  match s with
  | String c s' => if Ascii.eqb c "010"%char then s' else s
  | EmptyString => s
  end.



(** ** Sample values: the network 192.168.1.0/24 and the states of a run
    on three requests for 100 hosts *)

Definition net24 : IPv4Network := mkNetwork 3232235776 24.

Definition row_100_first : row :=
  mkRow 100 (mkNetwork 3232235776 25) 4294967168
    (Host 3232235777) (Host 3232235902) 3232235903 126.

Definition row_100_second : row :=
  mkRow 100 (mkNetwork 3232235904 25) 4294967168
    (Host 3232235905) (Host 3232236030) 3232236031 126.

Definition after_one : state := mkState [row_100_first] 3232235904.

Definition after_two : state :=
  mkState [row_100_first; row_100_second] 3232236032.

(** ** Running the model *)

(** The default content of the two widgets: 192.168.1.0/24 with 100, 50
    and 20 hosts, one per line. *)
Example ex_default :
  skuska (Cidr 3232235776 24) "100
50
20" =
  Table None
    [Record_row (mkRow 100 (mkNetwork 3232235776 25) 4294967168
                   (Host 3232235777) (Host 3232235902) 3232235903 126);
     Record_row (mkRow 50 (mkNetwork 3232235904 26) 4294967232
                   (Host 3232235905) (Host 3232235966) 3232235967 62);
     Record_row (mkRow 20 (mkNetwork 3232235968 27) 4294967264
                   (Host 3232235969) (Host 3232235998) 3232235999 30)].
Proof. vm_compute. reflexivity. Qed.

Example ex_bit_length :
  bit_length 5 = 3 /\ bit_length 0 = 0 /\ bit_length (-4) = 3.
Proof. repeat split. Qed.

(** Host bits of the address are cleared: 192.168.1.77/24. *)
Example ex_non_strict :
  ip_network 3232235853 24 = Some net24
  /\ broadcast_address net24 = 3232236031
  /\ num_addresses net24 = 256.
Proof. repeat split. Qed.

Example ex_parse_hosts :
  parse_hosts "1_0
+7 ,, 
 3" = Some [10; 7; 3]
  /\ parse_hosts "12, x" = None
  /\ parse_hosts "1__0" = None
  /\ parse_hosts "," = Some [].
Proof. repeat split. Qed.

(** 10.0.0.0/30 with a request for 5 hosts: the guard of line 63, then the
    table with the placeholder row. *)
Example ex_too_small :
  skuska (Cidr 167772160 30) "5"
  = Table (Some (Allocation_error_space 5)) [Error_row].
Proof. vm_compute. reflexivity. Qed.

(** The prefix check of line 75 returns without a table. *)
Example ex_prefix_error :
  skuska (Cidr 3232235776 24) "-300" = No_table (Prefix_error (-300) 23 24).
Proof. vm_compute. reflexivity. Qed.

(** A parent that ends at 255.255.255.255: line 120 raises after the last
    row has been appended. *)
Example ex_top_of_address_space :
  skuska (Cidr 4294967040 24) "100,100"
  = Table (Some Calculation_error)
      [Record_row (mkRow 100 (mkNetwork 4294967040 25) 4294967168
                     (Host 4294967041) (Host 4294967166) 4294967167 126);
       Record_row (mkRow 100 (mkNetwork 4294967168 25) 4294967168
                     (Host 4294967169) (Host 4294967294) 4294967295 126)].
Proof. vm_compute. reflexivity. Qed.

(** ** Facts about the library model *)

Section Masks.

Variables (a p : Z).
Hypothesis Hp : 0 <= p <= 32.

Lemma shifted_ones : Z.shiftr ALL_ONES p = Z.ones (32 - p).
Proof.
  change ALL_ONES with (Z.ones 32).
  rewrite Z.shiftr_div_pow2 by lia.
  apply Z.ones_div_pow2; lia.
Qed.

Lemma netmask_of_value : netmask_of p = 2 ^ 32 - 2 ^ (32 - p).
Proof.
  assert (E : Z.lor (netmask_of p) (Z.ones (32 - p)) = Z.ones 32
              /\ Z.land (netmask_of p) (Z.ones (32 - p)) = 0).
  { unfold netmask_of. rewrite shifted_ones.
    change ALL_ONES with (Z.ones 32).
    split; apply Z.bits_inj'; intros n Hn;
      rewrite ?Z.lor_spec, ?Z.land_spec, Z.lxor_spec, ?Z.bits_0,
        !Z.testbit_ones_nonneg by lia;
      destruct (Z.ltb_spec n 32), (Z.ltb_spec n (32 - p));
      try reflexivity; lia. }
  destruct E as [E1 E2].
  pose proof (Z.add_lor_land (netmask_of p) (Z.ones (32 - p))) as E.
  rewrite E1, E2, !Z.ones_equiv in E. lia.
Qed.

Hypothesis Ha : 0 <= a < 2 ^ 32.

Lemma high_bits_clear n : 32 <= n -> Z.testbit a n = false.
Proof.
  intros Hn. destruct (Z.eq_dec a 0) as [->|Hz].
  - apply Z.bits_0.
  - apply Z.bits_above_log2; [lia|].
    apply Z.lt_le_trans with 32; [|exact Hn].
    apply Z.log2_lt_pow2; lia.
Qed.

Lemma land_netmask :
  Z.land a (netmask_of p) = 2 ^ (32 - p) * (a / 2 ^ (32 - p)).
Proof.
  rewrite <- Z.shiftr_div_pow2, Z.mul_comm, <- Z.shiftl_mul_pow2 by lia.
  rewrite <- Z.ldiff_ones_r by lia.
  unfold netmask_of. rewrite shifted_ones.
  change ALL_ONES with (Z.ones 32).
  apply Z.bits_inj'; intros n Hn.
  rewrite Z.land_spec, Z.lxor_spec, Z.ldiff_spec,
    !Z.testbit_ones_nonneg by lia.
  destruct (Z.ltb_spec n 32), (Z.ltb_spec n (32 - p)); simpl;
    rewrite ?andb_true_r, ?andb_false_r; try reflexivity; try lia.
  symmetry. apply high_bits_clear. lia.
Qed.

End Masks.

Lemma block_size_pos b : 0 <= b -> 0 < block_size b.
Proof. intros. unfold block_size. apply Z.pow_pos_nonneg; lia. Qed.

Lemma block_size_divide b c :
  0 <= b <= c -> (block_size b | block_size c).
Proof.
  intros H. exists (2 ^ (c - b)). unfold block_size.
  rewrite <- Z.pow_add_r by lia. f_equal. lia.
Qed.

Lemma block_size_le b c : 0 <= b <= c -> block_size b <= block_size c.
Proof. intros. unfold block_size. apply Z.pow_le_mono_r; lia. Qed.

Lemma IPv4Address_Some n a :
  IPv4Address n = Some a <-> a = n /\ 0 <= n < 2 ^ 32.
Proof.
  unfold IPv4Address, ALL_ONES.
  destruct (Z.ltb_spec n 0), (Z.ltb_spec (2 ^ 32 - 1) n); simpl;
    split; intros H'; try discriminate; try (destruct H'; lia).
  - inversion H'. lia.
  - destruct H' as [-> _]. reflexivity.
Qed.

Lemma ip_network_Some a p n :
  ip_network a p = Some n ->
  0 <= a < 2 ^ 32 /\ 0 <= p <= 32 /\ prefixlen n = p
  /\ network_address n = block_size (32 - p) * (a / block_size (32 - p)).
Proof.
  unfold ip_network, max_prefixlen.
  destruct (IPv4Address a) as [a'|] eqn:Ea; [|discriminate].
  apply IPv4Address_Some in Ea. destruct Ea as [-> Ha].
  destruct (Z.ltb_spec p 0), (Z.ltb_spec 32 p); simpl; try discriminate.
  intros E. inversion E; subst; simpl.
  repeat split; try lia. apply land_netmask; lia.
Qed.

Lemma ip_network_total a p :
  0 <= a < 2 ^ 32 -> 0 <= p <= 32 -> exists n, ip_network a p = Some n.
Proof.
  intros Ha Hp. unfold ip_network, max_prefixlen.
  destruct (IPv4Address a) as [a'|] eqn:Ea.
  - destruct (Z.ltb_spec p 0), (Z.ltb_spec 32 p); simpl; try lia.
    eexists; reflexivity.
  - unfold IPv4Address, ALL_ONES in Ea.
    destruct (Z.ltb_spec a 0), (Z.ltb_spec (2 ^ 32 - 1) a);
      simpl in Ea; try discriminate; lia.
Qed.

Lemma ip_network_well_formed a p n :
  ip_network a p = Some n -> well_formed n.
Proof.
  intros H. apply ip_network_Some in H.
  destruct H as (Ha & Hp & Hpl & Hn).
  pose proof (block_size_pos (32 - p) ltac:(lia)) as Hb.
  assert (Hq : 0 <= a / block_size (32 - p)) by (apply Z.div_pos; lia).
  assert (Hr : block_size (32 - p) * (a / block_size (32 - p)) <= a)
    by (apply Z.mul_div_le; lia).
  unfold well_formed. rewrite Hpl, Hn.
  repeat split; try lia.
  - exists (a / block_size (32 - p)). lia.
  - assert (E : 2 ^ 32 = block_size (32 - p) * block_size p).
    { unfold block_size. rewrite <- Z.pow_add_r by lia. f_equal. lia. }
    assert (a / block_size (32 - p) < block_size p).
    { apply Z.div_lt_upper_bound; lia. }
    nia.
Qed.

(** Non-strict construction keeps the address inside the block it builds. *)
Lemma ip_network_contains a p n :
  ip_network a p = Some n ->
  network_address n <= a < network_address n + block_size (32 - p).
Proof.
  intros H. apply ip_network_Some in H.
  destruct H as (Ha & Hp & Hpl & Hn).
  pose proof (block_size_pos (32 - p) ltac:(lia)) as Hb.
  pose proof (Z.mul_div_le a _ Hb).
  pose proof (Z.mul_succ_div_gt a _ Hb). lia.
Qed.

(** On an aligned address it clears nothing. *)
Lemma ip_network_aligned a p n :
  ip_network a p = Some n ->
  (block_size (32 - p) | a) -> network_address n = a.
Proof.
  intros H [k Hk]. apply ip_network_Some in H.
  destruct H as (Ha & Hp & Hpl & Hn).
  pose proof (block_size_pos (32 - p) ltac:(lia)) as Hb.
  rewrite Hn, Hk, Z.div_mul by lia. lia.
Qed.

(** It never goes below an aligned address that is not above the given
    one. *)
Lemma ip_network_floor a p n m :
  ip_network a p = Some n ->
  (block_size (32 - p) | m) -> m <= a -> m <= network_address n.
Proof.
  intros H [k Hk] Hm. apply ip_network_Some in H.
  destruct H as (Ha & Hp & Hpl & Hn).
  pose proof (block_size_pos (32 - p) ltac:(lia)) as Hb.
  assert (k <= a / block_size (32 - p)).
  { apply Z.div_le_lower_bound; lia. }
  rewrite Hn, Hk. nia.
Qed.

Lemma hostmask_value n :
  0 <= prefixlen n <= 32 -> hostmask n = block_size (32 - prefixlen n) - 1.
Proof.
  intros Hp. unfold hostmask, netmask, netmask_of.
  rewrite shifted_ones by lia. change ALL_ONES with (Z.ones 32).
  rewrite Z.lxor_comm, <- Z.lxor_assoc, Z.lxor_nilpotent, Z.lxor_0_l.
  rewrite Z.ones_equiv. unfold block_size. lia.
Qed.

Lemma broadcast_value n :
  well_formed n ->
  broadcast_address n = network_address n + block_size (32 - prefixlen n) - 1.
Proof.
  intros (Hp & Hn & [k Hk] & Hu). unfold broadcast_address.
  rewrite hostmask_value by lia.
  pose proof (Z.add_lor_land (network_address n)
                (block_size (32 - prefixlen n) - 1)) as E.
  assert (L : Z.land (network_address n)
                (block_size (32 - prefixlen n) - 1) = 0).
  { replace (block_size (32 - prefixlen n) - 1)
      with (Z.ones (32 - prefixlen n))
      by (rewrite Z.ones_equiv; unfold block_size; lia).
    rewrite Z.land_ones by lia. fold (block_size (32 - prefixlen n)).
    rewrite Hk. apply Z.mod_mul.
    pose proof (block_size_pos (32 - prefixlen n)). lia. }
  lia.
Qed.

Lemma num_addresses_value n :
  well_formed n -> num_addresses n = block_size (32 - prefixlen n).
Proof.
  intros H. unfold num_addresses. rewrite broadcast_value by exact H. lia.
Qed.

Lemma len_range a b : a <= b -> len (range a b) = b - a.
Proof.
  intros H. unfold len, range. rewrite length_map, length_seq. lia.
Qed.

(** [len(list(new_subnet.hosts()))] by prefix length. *)
Lemma len_hosts n :
  well_formed n ->
  len (hosts n) =
    if prefixlen n =? 31 then 2
    else if prefixlen n =? 32 then 1
    else num_addresses n - 2.
Proof.
  intros H. pose proof (num_addresses_value n H) as Hnum.
  pose proof (broadcast_value n H) as Hb.
  destruct H as (Hp & Hn & _ & Hu).
  unfold hosts, max_prefixlen. simpl (32 - 1).
  destruct (Z.eqb_spec (prefixlen n) 31) as [E|E].
  - rewrite E in Hb. change (block_size (32 - 31)) with 2 in Hb.
    rewrite len_range; lia.
  - destruct (Z.eqb_spec (prefixlen n) 32) as [E'|E'].
    + reflexivity.
    + assert (2 <= 32 - prefixlen n) by lia.
      assert (block_size 2 <= block_size (32 - prefixlen n))
        by (apply block_size_le; lia).
      change (block_size 2) with 4 in *.
      rewrite len_range; lia.
Qed.

(** ** The sizing step (lines 68-72) *)

Lemma bit_length_nonneg n : 0 <= bit_length n.
Proof.
  destruct n as [|q|q]; unfold bit_length; [lia| |];
    pose proof (Z.log2_nonneg (Z.pos q)); lia.
Qed.

Lemma bit_length_pos n : 0 < n -> bit_length n = Z.log2 n + 1.
Proof. destruct n; intros; try reflexivity; lia. Qed.

(** For a positive number the bit length [k] is fixed by
    [2^(k-1) <= n < 2^k]. *)
Lemma bit_length_spec n :
  0 < n -> 2 ^ (bit_length n - 1) <= n < 2 ^ bit_length n.
Proof.
  intros H. rewrite bit_length_pos by exact H.
  pose proof (Z.log2_spec n H) as L.
  replace (Z.log2 n + 1 - 1) with (Z.log2 n) by lia.
  replace (Z.log2 n + 1) with (Z.succ (Z.log2 n)) by lia. exact L.
Qed.

Lemma bit_length_mono a b : 0 <= a <= b -> bit_length a <= bit_length b.
Proof.
  intros [Ha Hab]. destruct (Z.eq_dec a 0) as [->|Hz].
  - apply bit_length_nonneg.
  - rewrite !bit_length_pos by lia.
    pose proof (Z.log2_le_mono a b Hab). lia.
Qed.

(** The block found for [h >= 0] holds [h + 2] addresses ... *)
Lemma bits_needed_enough h :
  0 <= h -> h + 2 <= block_size (bits_needed h).
Proof.
  intros H. unfold bits_needed, block_size.
  pose proof (bit_length_spec (h + 1) ltac:(lia)). lia.
Qed.

(** ... and no block with fewer host bits does. *)
Lemma bits_needed_least h k :
  0 <= h -> h + 2 <= block_size k -> bits_needed h <= k.
Proof.
  intros H Hk. unfold bits_needed, block_size in *.
  pose proof (bit_length_spec (h + 1) ltac:(lia)) as [L _].
  destruct (Z.lt_ge_cases k 0) as [Hneg|Hpos].
  - rewrite Z.pow_neg_r in Hk by exact Hneg. lia.
  - destruct (Z.lt_ge_cases k (bit_length (h + 1))) as [Hlt|]; [|lia].
    assert (2 ^ k <= 2 ^ (bit_length (h + 1) - 1))
      by (apply Z.pow_le_mono_r; lia).
    lia.
Qed.

Lemma bits_needed_mono h h' :
  0 <= h' <= h -> bits_needed h' <= bits_needed h.
Proof. intros. unfold bits_needed. apply bit_length_mono. lia. Qed.

Lemma bits_needed_ge_2 h : 1 <= h -> 2 <= bits_needed h.
Proof.
  intros H. change 2 with (bits_needed 1).
  apply bits_needed_mono. lia.
Qed.

(** C1. For every host count [h >= 1] the sizing step returns the prefix
    length [p] of the smallest block that holds [h + 2] addresses:
    [2^(32-p) >= h + 2], every prefix length [q] with [2^(32-q) >= h + 2]
    is at most [p] (so [32 - p] is the least number of host bits that
    gives room), and [p] is the only number with these two properties.
    It is 30 for 2 hosts, 29 for 6 and 24 for 254, and when [h + 2] is a
    power of two [2^k] it is [32 - k], not [32 - (k + 1)]. *)
Theorem C1_required_prefix_length (h : Z) :
  1 <= h ->
  let p := new_prefix h in
  2 ^ (32 - p) >= h + 2
  /\ (forall q, 2 ^ (32 - q) >= h + 2 -> q <= p)
  /\ (forall p', 2 ^ (32 - p') >= h + 2 ->
                 (forall q, 2 ^ (32 - q) >= h + 2 -> q <= p') -> p' = p)
  /\ (forall k, h + 2 = 2 ^ k -> p = 32 - k)
  /\ new_prefix 2 = 30 /\ new_prefix 6 = 29 /\ new_prefix 254 = 24.
Proof.
  intros Hh p.
  assert (Hroom : 2 ^ (32 - p) >= h + 2).
  { unfold p, new_prefix.
    replace (32 - (32 - bits_needed h)) with (bits_needed h) by lia.
    pose proof (bits_needed_enough h ltac:(lia)). unfold block_size in *.
    lia. }
  assert (Hleast : forall q, 2 ^ (32 - q) >= h + 2 -> q <= p).
  { intros q Hq. unfold p, new_prefix.
    pose proof (bits_needed_least h (32 - q) ltac:(lia)) as L.
    unfold block_size in L. lia. }
  repeat split; try exact Hroom; try exact Hleast; try reflexivity.
  - intros p' H1 H2. apply Z.le_antisymm; [apply Hleast|apply H2]; assumption.
  - intros k Hk.
    assert (Hk0 : 0 <= k).
    { destruct (Z.lt_ge_cases k 0) as [Hneg|]; [|assumption].
      rewrite Z.pow_neg_r in Hk by exact Hneg. lia. }
    apply Z.le_antisymm.
    + unfold p, new_prefix, bits_needed.
      pose proof (bit_length_spec (h + 1) ltac:(lia)) as [_ U].
      pose proof (bit_length_nonneg (h + 1)) as N.
      destruct (Z.lt_ge_cases (bit_length (h + 1)) k) as [Hlt|]; [|lia].
      exfalso.
      assert (2 ^ bit_length (h + 1) <= 2 ^ (k - 1))
        by (apply Z.pow_le_mono_r; lia).
      replace k with (Z.succ (k - 1)) in Hk by lia.
      rewrite Z.pow_succ_r in Hk by lia. lia.
    + apply Hleast. replace (32 - (32 - k)) with k by lia. lia.
Qed.

Lemma C1_required_prefix_length_witness :
  2 ^ (32 - new_prefix 100) >= 100 + 2
  /\ (forall k, 126 + 2 = 2 ^ k -> new_prefix 126 = 32 - k).
Proof.
  split.
  - apply (C1_required_prefix_length 100). lia.
  - apply (C1_required_prefix_length 126). lia.
Defined.

(** ** One pass through the loop body *)

Lemma make_row_Requested r n fh lh : Requested (make_row r n fh lh) = r.
Proof. unfold make_row. destruct (_ <? 1); reflexivity. Qed.

Lemma make_row_Net r n fh lh : Net_IP_prefix (make_row r n fh lh) = n.
Proof. unfold make_row. destruct (_ <? 1); reflexivity. Qed.

Lemma make_row_Broadcast r n fh lh :
  Broadcast (make_row r n fh lh) = broadcast_address n.
Proof. unfold make_row. destruct (_ <? 1); reflexivity. Qed.

Lemma make_row_Usable r n fh lh :
  Usable_IP (make_row r n fh lh) =
    if len (hosts n) <? 1 then 0 else len (hosts n).
Proof. unfold make_row. destruct (_ <? 1); reflexivity. Qed.

Ltac case_guard H :=
  match type of H with
  | context [if ?b then _ else _] =>
      let E := fresh "G" in destruct b eqn:E; try discriminate H
  | context [match ?o with Some _ => _ | None => _ end] =>
      let E := fresh "G" in destruct o eqn:E; try discriminate H
  end.

Lemma body_Continue P r s s' :
  body P r s = Continue s' -> exists n, pass P r s s' n.
Proof.
  unfold body. intros H. repeat case_guard H.
  unfold address_add, address_sub in *.
  apply IPv4Address_Some in G3, G4, G5.
  destruct G3 as [-> _], G4 as [-> _], G5 as [-> Hc].
  inversion H; subst; clear H. exists i.
  constructor; simpl; try reflexivity; try assumption; lia.
Qed.

Lemma pass_candidate P r s s' n : pass P r s s' n -> candidate P r s = Some n.
Proof.
  intros [Hs Hp Hn _ _ _ _]. unfold candidate. rewrite Hn.
  destruct (Z.ltb_spec (num_addresses P) (r + 2)); [lia|].
  destruct (Z.ltb_spec (new_prefix r) (prefixlen P)); [lia|reflexivity].
Qed.

(** A pass that breaks leaves [results] as it was, except when line 120
    raises: the row has been appended by then. *)
Lemma body_Break P r s m s' :
  body P r s = Break m s' ->
  current_ip s' = current_ip s
  /\ ((m = Allocation_error_space r /\ num_addresses P < r + 2
       /\ results s' = results s)
      \/ (exists n, m = Allocation_error_boundary r n
                    /\ r + 2 <= num_addresses P
                    /\ candidate P r s = Some n
                    /\ broadcast_address P < broadcast_address n
                    /\ results s' = results s)
      \/ (m = Calculation_error /\ r + 2 <= num_addresses P
          /\ (results s' = results s
              \/ exists row, results s' = results s ++ [row]))).
Proof.
  unfold body, candidate. intros H.
  repeat case_guard H; inversion H; subst; clear H; simpl;
    (split; [reflexivity|]).
  - left. repeat split. lia.
  - right; left. exists i. repeat split; lia.
  - right; right. repeat split; try lia. right. eexists; reflexivity.
  - right; right. repeat split; try lia. left; reflexivity.
  - right; right. repeat split; try lia. left; reflexivity.
  - right; right. repeat split; try lia. left; reflexivity.
Qed.

Lemma body_Return P r s m :
  body P r s = Return m ->
  m = Prefix_error r (new_prefix r) (prefixlen P)
  /\ r + 2 <= num_addresses P /\ new_prefix r < prefixlen P.
Proof.
  unfold body. intros H.
  repeat case_guard H; inversion H; subst; clear H.
  repeat split; lia.
Qed.

(** ** Invariants of the loop *)

Lemma cursor_after_snoc rows : forall start r,
  cursor_after start (rows ++ [r]) = Broadcast r + 1.
Proof. induction rows as [|x rows IH]; intros; simpl; auto. Qed.

Lemma packed_from_snoc rows : forall start r,
  packed_from start rows ->
  network_address (Net_IP_prefix r) = cursor_after start rows ->
  packed_from start (rows ++ [r]).
Proof.
  induction rows as [|x rows IH]; intros start r H E; simpl in *.
  - auto.
  - destruct H as [H1 H2]. split; [exact H1|]. apply IH; assumption.
Qed.

Lemma sorted_suffix (pre : list Z) : forall r l,
  StronglySorted (fun x y => y <= x) (pre ++ r :: l) ->
  Forall (fun y => y <= r) l.
Proof.
  induction pre as [|x pre IH]; intros r l H; simpl in H.
  - inversion H; assumption.
  - inversion H; subst. apply IH; assumption.
Qed.

Section Run.

Variable P : IPv4Network.
Hypothesis wfP : well_formed P.

(** The block of a pass that reaches its last statement. *)
Lemma pass_block r s s' n :
  pass P r s s' n ->
  well_formed n
  /\ prefixlen n = new_prefix r
  /\ 0 <= bits_needed r <= 32 - prefixlen P
  /\ broadcast_address n = network_address n + block_size (bits_needed r) - 1
  /\ (network_address P <= current_ip s ->
      network_address P <= network_address n).
Proof.
  intros [Hs Hp Hn Hb _ _ _].
  pose proof (ip_network_well_formed _ _ _ Hn) as Hwf.
  pose proof (ip_network_Some _ _ _ Hn) as (Ha & Hnp & Hpl & _).
  assert (Hbits : 32 - new_prefix r = bits_needed r)
    by (unfold new_prefix; lia).
  split; [exact Hwf|]. split; [exact Hpl|]. split; [lia|]. split.
  - rewrite broadcast_value, Hpl, Hbits by exact Hwf. reflexivity.
  - destruct wfP as (HpP & _ & HdP & _).
    apply (ip_network_floor _ _ _ _ Hn).
    apply Z.divide_trans with (block_size (32 - prefixlen P));
      [apply block_size_divide; lia | exact HdP].
Qed.

(** Every state of a run has its cursor at or after the parent's network
    address and only rows inside the parent, whatever the host counts. *)
Lemma reaches_within L s l :
  reaches P (initial P) L s l ->
  network_address P <= current_ip s
  /\ Forall (row_within P) (results s).
Proof.
  induction 1 as [|s r l' s' Hr IH Hb].
  - simpl. split; [lia|constructor].
  - destruct IH as [Hc Hrows].
    apply body_Continue in Hb. destruct Hb as [n Hpass].
    destruct (pass_block _ _ _ _ Hpass)
      as (Hwf & Hpl & Hbits & Hbc & Hnet).
    specialize (Hnet Hc).
    destruct Hpass as [Hs Hp Hn Hbd Hres Hcur Hrange].
    pose proof (block_size_pos (bits_needed r) ltac:(lia)).
    split; [lia|].
    rewrite Hres. apply Forall_app. split; [exact Hrows|].
    constructor; [|constructor].
    unfold row_within. rewrite make_row_Net, make_row_Broadcast.
    repeat split; lia.
Qed.

(** The cursor is an IPv4 address in every state. *)
Lemma reaches_cursor_range L s l :
  reaches P (initial P) L s l -> 0 <= current_ip s < 2 ^ 32.
Proof.
  intros H. pose proof (reaches_within _ _ _ H) as [Hlow _].
  destruct wfP as (Hp & Hn & _ & Hu).
  pose proof (block_size_pos (32 - prefixlen P) ltac:(lia)).
  split; [lia|].
  destruct H as [|s r l' s' Hr Hb]; [simpl; lia|].
  apply body_Continue in Hb. destruct Hb as [n [_ _ _ _ _ _ Hrange]].
  exact Hrange.
Qed.

End Run.

Section SortedRun.

Variable P : IPv4Network.
Hypothesis wfP : well_formed P.

Variable L : list Z.
Hypothesis L_sorted : StronglySorted (fun x y => y <= x) L.
Hypothesis L_nonneg : Forall (fun h => 0 <= h) L.

Lemma run_inv_initial : run_inv P L (initial P) L.
Proof.
  constructor; simpl; try reflexivity; try exact I.
  intros r Hin Hr.
  destruct wfP as (Hp & _ & Hd & _).
  rewrite num_addresses_value in Hr by exact wfP.
  assert (0 <= r) by (rewrite Forall_forall in L_nonneg; auto).
  pose proof (bits_needed_least r _ H Hr).
  pose proof (bit_length_nonneg (r + 1)). fold (bits_needed r) in *.
  apply Z.divide_trans with (block_size (32 - prefixlen P));
    [apply block_size_divide; lia | exact Hd].
Qed.

Lemma run_inv_step s r l s' :
  run_inv P L s (r :: l) -> body P r s = Continue s' -> run_inv P L s' l.
Proof.
  intros [Hdone Hal Hpk Hcur] Hb.
  apply body_Continue in Hb. destruct Hb as [n Hpass].
  destruct (pass_block P wfP _ _ _ _ Hpass)
    as (Hwf & Hpl & Hbits & Hbc & _).
  destruct Hpass as [Hs Hp Hn Hbd Hres Hc Hrange].
  assert (Hnet : network_address n = current_ip s).
  { apply (ip_network_aligned _ _ _ Hn).
    replace (32 - new_prefix r) with (bits_needed r)
      by (unfold new_prefix; lia).
    apply Hal; [left; reflexivity | exact Hs]. }
  constructor.
  - rewrite Hres, map_app, <- app_assoc. simpl.
    rewrite make_row_Requested. exact Hdone.
  - intros r' Hin Hr'.
    assert (Hle : r' <= r).
    { rewrite Hdone in L_sorted. apply sorted_suffix in L_sorted.
      rewrite Forall_forall in L_sorted. auto. }
    assert (H0 : 0 <= r').
    { rewrite Forall_forall in L_nonneg. apply L_nonneg.
      rewrite Hdone. apply in_or_app. right. right. exact Hin. }
    pose proof (bits_needed_mono r r' ltac:(lia)).
    pose proof (bit_length_nonneg (r' + 1)). fold (bits_needed r') in *.
    assert (D : (block_size (bits_needed r') | block_size (bits_needed r)))
      by (apply block_size_divide; lia).
    rewrite Hc, Hbc, Hnet.
    replace (current_ip s + block_size (bits_needed r) - 1 + 1)
      with (current_ip s + block_size (bits_needed r)) by lia.
    apply Z.divide_add_r; [|exact D].
    apply Hal; [right; exact Hin | exact Hr'].
  - rewrite Hres. apply packed_from_snoc; [exact Hpk|].
    rewrite make_row_Net, Hcur. exact Hnet.
  - rewrite Hres, cursor_after_snoc, make_row_Broadcast. lia.
Qed.

Lemma reaches_run_inv s l :
  reaches P (initial P) L s l -> run_inv P L s l.
Proof.
  induction 1 as [|s r l s' Hr IH Hb].
  - apply run_inv_initial.
  - eapply run_inv_step; eassumption.
Qed.

End SortedRun.

Lemma reaches_rows_made P L s l :
  reaches P (initial P) L s l -> Forall row_made (results s).
Proof.
  induction 1 as [|s r l' s' Hr IH Hb].
  - constructor.
  - apply body_Continue in Hb. destruct Hb as [n Hpass].
    destruct Hpass as [Hs Hp Hn Hbd Hres Hcur Hrange].
    rewrite Hres. apply Forall_app. split; [exact IH|].
    constructor; [|constructor].
    unfold row_made. rewrite make_row_Net, make_row_Requested.
    split; [exact (ip_network_well_formed _ _ _ Hn)|].
    split; [|reflexivity].
    apply ip_network_Some in Hn. tauto.
Qed.

(** The loop function follows the step relation. *)
Lemma for_loop_reaches P s0 L : forall l s,
  reaches P s0 L s l ->
  match for_loop P l s with
  | Fell None s' => reaches P s0 L s' []
  | Fell (Some m) s' =>
      exists s1 r l', reaches P s0 L s1 (r :: l') /\ body P r s1 = Break m s'
  | Returned m =>
      exists s1 r l', reaches P s0 L s1 (r :: l') /\ body P r s1 = Return m
  end.
Proof.
  induction l as [|r l IH]; intros s H; simpl.
  - exact H.
  - destruct (body P r s) as [s'|m s'|m] eqn:E.
    + apply IH. econstructor; eassumption.
    + exists s, r, l. auto.
    + exists s, r, l. auto.
Qed.

(** A loop that ends without a message has appended one row for each
    host count. *)
Lemma for_loop_length P : forall l s s',
  for_loop P l s = Fell None s' ->
  List.length (results s') = (List.length (results s) + List.length l)%nat.
Proof.
  induction l as [|x l IH]; intros s s' F; simpl in F.
  - inversion F. simpl. lia.
  - destruct (body P x s) as [s1|m s1|m] eqn:B; try discriminate.
    apply IH in F. apply body_Continue in B.
    destruct B as [n [_ _ _ _ Hres _ _]].
    rewrite F, Hres, length_app. simpl. lia.
Qed.

(** A run that shows the table without a message has gone through the
    whole list, and the table is that of its last state. *)
Lemma vlsm_success P L df :
  vlsm P L = Table None df ->
  exists s, reaches P (initial P) L s []
            /\ df = map Record_row (results s) /\ results s <> [].
Proof.
  unfold vlsm. destruct L as [|r L]; [discriminate|].
  pose proof (for_loop_reaches P (initial P) (r :: L) (r :: L) (initial P)
                (reaches_start _ _ _)) as H.
  destruct (for_loop P (r :: L) (initial P)) as [[m|] s|m] eqn:E;
    try discriminate.
  intros T. inversion T; subst; clear T.
  assert (N : results s <> []).
  { apply for_loop_length in E. intros Z0. rewrite Z0 in E.
    simpl in E. lia. }
  exists s. split; [exact H|]. split; [|exact N].
  unfold dataframe. destruct (results s); [contradiction|reflexivity].
Qed.

(** ** The sort of line 44 *)

Lemma insert_desc_perm x l : Permutation (insert_desc x l) (x :: l).
Proof.
  induction l as [|y l IH]; simpl.
  - reflexivity.
  - destruct (y <=? x); [reflexivity|].
    rewrite IH. apply perm_swap.
Qed.

Lemma sort_desc_perm l : Permutation (sort_desc l) l.
Proof.
  induction l as [|x l IH]; simpl.
  - constructor.
  - rewrite insert_desc_perm. constructor. exact IH.
Qed.

Lemma insert_desc_sorted x l :
  StronglySorted (fun a b => b <= a) l ->
  StronglySorted (fun a b => b <= a) (insert_desc x l).
Proof.
  induction 1 as [|y l Hs IH Hall]; simpl.
  - constructor; constructor.
  - destruct (Z.leb_spec y x) as [Hyx|Hxy].
    + constructor; [constructor; assumption|].
      constructor; [exact Hyx|].
      rewrite Forall_forall in *. intros z Hz.
      specialize (Hall z Hz). lia.
    + constructor; [exact IH|].
      apply (Permutation_Forall (Permutation_sym (insert_desc_perm x l))).
      constructor; [lia|exact Hall].
Qed.

Lemma sort_desc_sorted l : StronglySorted (fun a b => b <= a) (sort_desc l).
Proof.
  induction l as [|x l IH]; simpl.
  - constructor.
  - apply insert_desc_sorted. exact IH.
Qed.

Lemma sort_desc_Forall (Q : Z -> Prop) l :
  Forall Q l -> Forall Q (sort_desc l).
Proof.
  apply Permutation_Forall. apply Permutation_sym, sort_desc_perm.
Qed.



(** ** Packed tables *)

Lemma packed_from_start start rows r :
  packed_from start rows -> hd_error rows = Some r ->
  network_address (Net_IP_prefix r) = start.
Proof.
  destruct rows as [|x rows]; simpl; [discriminate|].
  intros [H _] E. congruence.
Qed.

Lemma packed_from_next rows : forall start i r1 r2,
  packed_from start rows ->
  nth_error rows i = Some r1 -> nth_error rows (S i) = Some r2 ->
  network_address (Net_IP_prefix r2) = Broadcast r1 + 1.
Proof.
  induction rows as [|x rows IH]; intros start i r1 r2 H E1 E2.
  - destruct i; discriminate.
  - destruct H as [_ H]. destruct i as [|i]; simpl in E1, E2.
    + inversion E1; subst.
      apply (packed_from_start _ rows); [exact H|].
      destruct rows; [discriminate|exact E2].
    + eapply IH; eassumption.
Qed.

(** In a packed table of non-empty ranges every row starts at or after
    the start of the table. *)
Lemma packed_from_lower rows : forall start r,
  packed_from start rows ->
  Forall (fun r => network_address (Net_IP_prefix r) <= Broadcast r) rows ->
  In r rows -> start <= network_address (Net_IP_prefix r).
Proof.
  induction rows as [|x rows IH]; intros start r H F Hin; [easy|].
  destruct H as [Hx H]. apply Forall_cons_iff in F. destruct F as [Fx Frows].
  destruct Hin as [->|Hin]; [lia|].
  specialize (IH _ _ H Frows Hin). lia.
Qed.

Lemma packed_from_ordered rows : forall start i j r1 r2,
  packed_from start rows ->
  Forall (fun r => network_address (Net_IP_prefix r) <= Broadcast r) rows ->
  (i < j)%nat -> nth_error rows i = Some r1 -> nth_error rows j = Some r2 ->
  Broadcast r1 < network_address (Net_IP_prefix r2).
Proof.
  induction rows as [|x rows IH]; intros start i j r1 r2 H F Hij E1 E2.
  - destruct i; discriminate.
  - destruct H as [Hx H]. apply Forall_cons_iff in F. destruct F as [Fx Frows].
    destruct j as [|j]; [lia|]. simpl in E2.
    destruct i as [|i]; simpl in E1.
    + inversion E1; subst.
      apply nth_error_In in E2.
      pose proof (packed_from_lower _ _ _ H Frows E2). lia.
    + apply (IH _ i j _ _ H Frows); [lia | exact E1 | exact E2].
Qed.

Lemma reaches_done P L s l :
  reaches P (initial P) L s l -> L = map Requested (results s) ++ l.
Proof.
  induction 1 as [|s r l' s' Hr IH Hb].
  - reflexivity.
  - apply body_Continue in Hb. destruct Hb as [n [_ _ _ _ Hres _ _]].
    rewrite Hres, map_app, <- app_assoc. simpl.
    rewrite make_row_Requested. exact IH.
Qed.

(** ** Properties of a run *)

(** C2. For every parent network [P] that [ip_network] returns and every
    list of host counts on which the run succeeds (the table is shown and
    no message box is), every row of the table has the network address and
    the broadcast address of its subnet inside the range of [P]: no subnet
    starts before the parent's network address or ends after its broadcast
    address.  It holds whatever the host counts are. *)
Theorem C2_subnets_within_parent
    (a p : Z) (P : IPv4Network) (R : list Z) (df : list table_row) :
  ip_network a p = Some P ->
  allocate P R = Table None df ->
  forall r, In (Record_row r) df ->
    network_address P <= network_address (Net_IP_prefix r)
                      <= broadcast_address P
    /\ network_address P <= broadcast_address (Net_IP_prefix r)
                         <= broadcast_address P
    /\ Broadcast r = broadcast_address (Net_IP_prefix r).
Proof.
  intros HP Hrun r Hin.
  apply ip_network_well_formed in HP.
  apply vlsm_success in Hrun. destruct Hrun as (s & Hreach & -> & _).
  apply in_map_iff in Hin. destruct Hin as (r' & E & Hin).
  inversion E; subst r'; clear E.
  destruct (reaches_within P HP _ _ _ Hreach) as [_ Hrows].
  rewrite Forall_forall in Hrows.
  destruct (Hrows r Hin) as (H1 & H2 & H3 & H4). lia.
Qed.

Lemma C2_subnets_within_parent_witness :
  let r := mkRow 50 (mkNetwork 3232235904 26) 4294967232
             (Host 3232235905) (Host 3232235966) 3232235967 62 in
  network_address net24 <= network_address (Net_IP_prefix r)
                        <= broadcast_address net24
  /\ network_address net24 <= broadcast_address (Net_IP_prefix r)
                           <= broadcast_address net24
  /\ Broadcast r = broadcast_address (Net_IP_prefix r).
Proof.
  intros r.
  apply (C2_subnets_within_parent 3232235853 24 net24 [50; 100]
           [Record_row row_100_first; Record_row r]).
  - reflexivity.
  - vm_compute. reflexivity.
  - right. left. reflexivity.
Defined.

(** C10. For every successful run and every row of its table whose
    requested host count is positive, the usable count of the row is at
    least the requested host count. *)
Theorem C10_usable_covers_request
    (a p : Z) (P : IPv4Network) (R : list Z) (df : list table_row) :
  ip_network a p = Some P ->
  allocate P R = Table None df ->
  forall r, In (Record_row r) df ->
    0 < Requested r -> Requested r <= Usable_IP r.
Proof.
  intros HP Hrun r Hin Hpos.
  apply vlsm_success in Hrun. destruct Hrun as (s & Hreach & -> & _).
  apply in_map_iff in Hin. destruct Hin as (r' & E & Hin).
  inversion E; subst r'; clear E.
  pose proof (reaches_rows_made _ _ _ _ Hreach) as Hrows.
  rewrite Forall_forall in Hrows.
  destruct (Hrows r Hin) as (Hwf & Hpl & Hrow).
  rewrite Hrow, make_row_Usable, make_row_Requested.
  pose proof (bits_needed_ge_2 (Requested r) ltac:(lia)) as Hbits.
  pose proof (bits_needed_enough (Requested r) ltac:(lia)) as Hroom.
  unfold new_prefix in Hpl.
  rewrite len_hosts, num_addresses_value by exact Hwf.
  destruct (Z.eqb_spec (prefixlen (Net_IP_prefix r)) 31); [lia|].
  destruct (Z.eqb_spec (prefixlen (Net_IP_prefix r)) 32); [lia|].
  replace (32 - prefixlen (Net_IP_prefix r))
    with (bits_needed (Requested r)) by lia.
  destruct (Z.ltb_spec (block_size (bits_needed (Requested r)) - 2) 1); lia.
Qed.

Lemma C10_usable_covers_request_witness :
  let r := mkRow 50 (mkNetwork 3232235904 26) 4294967232
             (Host 3232235905) (Host 3232235966) 3232235967 62 in
  Requested r <= Usable_IP r.
Proof.
  intros r.
  apply (C10_usable_covers_request 3232235776 24 net24 [50; 100]
           [Record_row row_100_first; Record_row r]).
  - reflexivity.
  - vm_compute. reflexivity.
  - right. left. reflexivity.
  - reflexivity.
Defined.

Lemma candidate_Some P r s n :
  candidate P r s = Some n ->
  r + 2 <= num_addresses P /\ prefixlen P <= new_prefix r
  /\ ip_network (current_ip s) (new_prefix r) = Some n.
Proof.
  unfold candidate. intros H. repeat case_guard H.
  repeat split; try exact H; lia.
Qed.

Lemma positive_sorted_nonneg R :
  Forall (fun h => 0 < h) R -> Forall (fun h => 0 <= h) (sort_desc R).
Proof.
  intros H. apply sort_desc_Forall.
  revert H. apply Forall_impl. intros; lia.
Qed.

(** C9. For every parent network that [ip_network] returns and every list
    of positive host counts, in each pass of the loop that builds a
    candidate subnet (line 84) the cursor is a multiple of the candidate's
    block size; so the non-strict construction clears no bit: the
    candidate's network address is the cursor, and the candidate is the
    one block from the cursor to the cursor plus the block size minus 1. *)
Theorem C9_cursor_aligned
    (a p : Z) (P : IPv4Network) (R : list Z)
    (s : state) (r : Z) (l : list Z) (new_subnet : IPv4Network) :
  ip_network a p = Some P ->
  Forall (fun h => 0 < h) R ->
  reaches P (initial P) (sort_desc R) s (r :: l) ->
  candidate P r s = Some new_subnet ->
  (block_size (32 - prefixlen new_subnet) | current_ip s)
  /\ network_address new_subnet = current_ip s
  /\ broadcast_address new_subnet
     = current_ip s + block_size (32 - prefixlen new_subnet) - 1.
Proof.
  intros HP Hpos Hreach Hcand.
  apply ip_network_well_formed in HP.
  pose proof (reaches_run_inv P HP _ (sort_desc_sorted R)
                (positive_sorted_nonneg R Hpos) _ _ Hreach) as Hinv.
  destruct Hinv as [_ Hal _ _].
  apply candidate_Some in Hcand. destruct Hcand as (Hs & Hp & Hn).
  pose proof (ip_network_well_formed _ _ _ Hn) as Hwf.
  pose proof (ip_network_Some _ _ _ Hn) as (_ & _ & Hpl & _).
  assert (Hd : (block_size (32 - prefixlen new_subnet) | current_ip s)).
  { rewrite Hpl. replace (32 - new_prefix r) with (bits_needed r)
      by (unfold new_prefix; lia).
    apply Hal; [left; reflexivity | exact Hs]. }
  assert (Hnet : network_address new_subnet = current_ip s).
  { apply (ip_network_aligned _ _ _ Hn). rewrite <- Hpl. exact Hd. }
  split; [exact Hd|]. split; [exact Hnet|].
  rewrite broadcast_value, Hnet by exact Hwf. reflexivity.
Qed.

Lemma C9_cursor_aligned_witness :
  (block_size (32 - 26) | 3232235904)
  /\ network_address (mkNetwork 3232235904 26) = 3232235904
  /\ broadcast_address (mkNetwork 3232235904 26)
     = 3232235904 + block_size (32 - 26) - 1.
Proof.
  apply (C9_cursor_aligned 3232235776 24 (mkNetwork 3232235776 24)
           [20; 100; 50]
           (mkState
              [mkRow 100 (mkNetwork 3232235776 25) 4294967168
                 (Host 3232235777) (Host 3232235902) 3232235903 126]
              3232235904)
           50 [20] (mkNetwork 3232235904 26)).
  - reflexivity.
  - repeat constructor.
  - apply (reaches_next _ _ _ (initial (mkNetwork 3232235776 24)) 100).
    + exact (reaches_start _ _ _).
    + vm_compute. reflexivity.
  - vm_compute. reflexivity.
Defined.

(** On positive host counts, the rows of the table of a successful run
    are one per host count in descending order, pairwise without a common
    address, and packed: the first subnet starts at the parent's network
    address, and each next subnet starts at the broadcast address of the
    one before plus 1. *)
Lemma contiguous_disjoint_positive
    (a p : Z) (P : IPv4Network) (R : list Z) (df : list table_row) :
  ip_network a p = Some P ->
  Forall (fun h => 0 < h) R ->
  allocate P R = Table None df ->
  exists rows,
    df = map Record_row rows
    /\ map Requested rows = sort_desc R
    /\ (forall r, hd_error rows = Some r ->
          network_address (Net_IP_prefix r) = network_address P)
    /\ (forall i r1 r2,
          nth_error rows i = Some r1 -> nth_error rows (S i) = Some r2 ->
          network_address (Net_IP_prefix r2) = Broadcast r1 + 1)
    /\ (forall i j r1 r2,
          i <> j -> nth_error rows i = Some r1 -> nth_error rows j = Some r2 ->
          ~ overlap r1 r2).
Proof.
  intros HP Hpos Hrun.
  apply ip_network_well_formed in HP.
  apply vlsm_success in Hrun. destruct Hrun as (s & Hreach & -> & _).
  pose proof (reaches_run_inv P HP _ (sort_desc_sorted R)
                (positive_sorted_nonneg R Hpos) _ _ Hreach) as Hinv.
  destruct Hinv as [Hdone _ Hpk _].
  destruct (reaches_within P HP _ _ _ Hreach) as [_ Hrows].
  assert (Hne : Forall (fun r => network_address (Net_IP_prefix r)
                                 <= Broadcast r) (results s)).
  { revert Hrows. apply Forall_impl. unfold row_within. tauto. }
  exists (results s). split; [reflexivity|].
  split; [rewrite Hdone, app_nil_r; reflexivity|].
  split; [intros r; apply packed_from_start; exact Hpk|].
  split; [intros i r1 r2; apply packed_from_next with (1 := Hpk)|].
  intros i j r1 r2 Hij E1 E2 (x & [L1 U1] & [L2 U2]).
  destruct (Nat.lt_total i j) as [Hlt|[Heq|Hgt]]; [|contradiction|].
  - pose proof (packed_from_ordered _ _ _ _ _ _ Hpk Hne Hlt E1 E2). lia.
  - pose proof (packed_from_ordered _ _ _ _ _ _ Hpk Hne Hgt E2 E1). lia.
Qed.



(** ** The guards of the loop *)

Lemma for_loop_from P s0 L s l :
  reaches P s0 L s l -> for_loop P L s0 = for_loop P l s.
Proof.
  induction 1 as [|s r l s' Hr IH Hb].
  - reflexivity.
  - rewrite IH. simpl. rewrite Hb. reflexivity.
Qed.

Lemma body_boundary P r s n :
  r + 2 <= num_addresses P ->
  prefixlen P <= new_prefix r ->
  ip_network (current_ip s) (new_prefix r) = Some n ->
  broadcast_address P < broadcast_address n ->
  body P r s = Break (Allocation_error_boundary r n) s.
Proof.
  intros H1 H2 H3 H4. unfold body. rewrite H3.
  destruct (Z.ltb_spec (num_addresses P) (r + 2)); [lia|].
  destruct (Z.ltb_spec (new_prefix r) (prefixlen P)); [lia|].
  destruct (Z.ltb_spec (broadcast_address P) (broadcast_address n)); [|lia].
  reflexivity.
Qed.

(** C4, as the code has it.  The guard of line 63 compares the host count
    plus 2 with the total number of addresses of the parent, not with what
    is left from the cursor: a pass ends with its message exactly when
    [requested_hosts + 2 > num_addresses].  In a run on positive host
    counts, a host count that passes this guard while fewer than
    [requested_hosts + 2] addresses are left from the cursor is stopped by
    the boundary guard of line 87 instead. *)
Theorem C4_space_guard_on_total_size
    (a p : Z) (P : IPv4Network) (R : list Z)
    (s : state) (r : Z) (l : list Z) :
  ip_network a p = Some P ->
  Forall (fun h => 0 < h) R ->
  reaches P (initial P) (sort_desc R) s (r :: l) ->
  ((exists s', body P r s = Break (Allocation_error_space r) s')
   <-> num_addresses P < r + 2)
  /\ (r + 2 <= num_addresses P ->
      remaining P (current_ip s) < r + 2 ->
      exists new_subnet,
        body P r s = Break (Allocation_error_boundary r new_subnet) s).
Proof.
  intros HP Hpos Hreach.
  apply ip_network_well_formed in HP.
  split.
  - split.
    + intros [s' Hb]. apply body_Break in Hb.
      destruct Hb as [_ [(_ & H & _)|[(n & E & _)|(E & _)]]];
        [exact H|discriminate|discriminate].
    + intros H. exists s. unfold body.
      destruct (Z.ltb_spec (num_addresses P) (r + 2)); [reflexivity|lia].
  - intros Hfit Hleft.
    pose proof (positive_sorted_nonneg R Hpos) as Hnn.
    pose proof (reaches_run_inv P HP _ (sort_desc_sorted R) Hnn _ _ Hreach)
      as [Hdone Hal _ _].
    assert (Hr : 0 <= r).
    { rewrite Forall_forall in Hnn. apply Hnn. rewrite Hdone.
      apply in_or_app. right. left. reflexivity. }
    pose proof (reaches_cursor_range P HP _ _ _ Hreach) as Hcur.
    pose proof (bit_length_nonneg (r + 1)) as Hb0. fold (bits_needed r) in Hb0.
    assert (Hbits : bits_needed r <= 32 - prefixlen P).
    { apply bits_needed_least; [exact Hr|].
      rewrite <- num_addresses_value by exact HP. exact Hfit. }
    destruct HP as (HpP & HnP & HdP & HuP).
    destruct (ip_network_total (current_ip s) (new_prefix r) Hcur)
      as [n Hn]; [unfold new_prefix; lia|].
    exists n. apply body_boundary; try assumption;
      [unfold new_prefix; lia|].
    pose proof (ip_network_well_formed _ _ _ Hn) as Hwf.
    pose proof (ip_network_Some _ _ _ Hn) as (_ & _ & Hpl & _).
    assert (Hnet : network_address n = current_ip s).
    { apply (ip_network_aligned _ _ _ Hn).
      replace (32 - new_prefix r) with (bits_needed r)
        by (unfold new_prefix; lia).
      apply Hal; [left; reflexivity | exact Hfit]. }
    rewrite (broadcast_value n Hwf), Hpl, Hnet.
    replace (32 - new_prefix r) with (bits_needed r)
      by (unfold new_prefix; lia).
    pose proof (bits_needed_enough r Hr). unfold remaining in Hleft. lia.
Qed.

Lemma reaches_after_two :
  reaches net24 (initial net24) (sort_desc [100; 100; 100]) after_two [100].
Proof.
  apply (reaches_next _ _ _ after_one 100).
  - apply (reaches_next _ _ _ (initial net24) 100).
    + exact (reaches_start _ _ _).
    + vm_compute. reflexivity.
  - vm_compute. reflexivity.
Defined.

Lemma C4_space_guard_on_total_size_witness :
  ((exists s', body net24 100 after_two = Break (Allocation_error_space 100) s')
   <-> num_addresses net24 < 100 + 2)
  /\ (100 + 2 <= num_addresses net24 ->
      remaining net24 (current_ip after_two) < 100 + 2 ->
      exists new_subnet,
        body net24 100 after_two
        = Break (Allocation_error_boundary 100 new_subnet) after_two).
Proof.
  apply (C4_space_guard_on_total_size 3232235776 24 net24 [100; 100; 100]
           after_two 100 []).
  - reflexivity.
  - repeat constructor.
  - exact reaches_after_two.
Defined.

(** C4, as the claim has it, fails on the third of three requests for 100
    hosts in 192.168.1.0/24: the run is at the third pass with the cursor
    at 192.168.2.0, no address of the parent is left, 0 < 100 + 2, and the
    pass does not end with the message of line 64 but with that of
    line 88. *)
Lemma C4_guard_ignores_remaining_space :
  ip_network 3232235776 24 = Some net24
  /\ reaches net24 (initial net24) (sort_desc [100; 100; 100]) after_two [100]
  /\ remaining net24 (current_ip after_two) = 0
  /\ remaining net24 (current_ip after_two) < 100 + 2
  /\ body net24 100 after_two
     = Break (Allocation_error_boundary 100 (mkNetwork 3232236032 25))
         after_two
  /\ ~ (exists s',
          body net24 100 after_two = Break (Allocation_error_space 100) s').
Proof.
  assert (E : body net24 100 after_two
              = Break (Allocation_error_boundary 100
                         (mkNetwork 3232236032 25)) after_two)
    by (vm_compute; reflexivity).
  split; [reflexivity|]. split; [exact reaches_after_two|].
  split; [vm_compute; reflexivity|]. split; [vm_compute; reflexivity|].
  split; [exact E|].
  intros [s' H]. rewrite E in H. discriminate H.
Qed.

(** C5, as the claim has it, fails on three requests for 100 hosts in
    192.168.1.0/24: the boundary guard fails for the third, and the table
    delivered after the message holds the two rows made before. *)
Lemma C5_partial_table_delivered :
  ip_network 3232235776 24 = Some net24
  /\ allocate net24 [100; 100; 100]
     = Table (Some (Allocation_error_boundary 100 (mkNetwork 3232236032 25)))
         [Record_row row_100_first; Record_row row_100_second]
  /\ skuska (Cidr 3232235776 24) "100, 100, 100"
     = Table (Some (Allocation_error_boundary 100 (mkNetwork 3232236032 25)))
         [Record_row row_100_first; Record_row row_100_second].
Proof. repeat split; vm_compute; reflexivity. Qed.

(** ** Host counts that are not positive *)

(** Every subnet has at least one address in [hosts()], so the branch of
    line 101 is never taken: no row has ['N/A'] host cells. *)
Lemma make_row_hosts r n fh lh :
  well_formed n ->
  make_row r n fh lh
  = mkRow r n (netmask n) (Host fh) (Host lh) (broadcast_address n)
      (len (hosts n)).
Proof.
  intros Hwf. unfold make_row.
  pose proof (len_hosts n Hwf) as E.
  pose proof (num_addresses_value n Hwf) as N.
  destruct Hwf as (Hp & _).
  destruct (Z.ltb_spec (len (hosts n)) 1) as [Hlt|]; [|reflexivity].
  exfalso. rewrite E in Hlt.
  destruct (Z.eqb_spec (prefixlen n) 31); [lia|].
  destruct (Z.eqb_spec (prefixlen n) 32); [lia|].
  assert (block_size 2 <= block_size (32 - prefixlen n))
    by (apply block_size_le; lia).
  change (block_size 2) with 4 in *. lia.
Qed.

(** Up to prefix length 30 the usable count of a row is the number of
    addresses of its subnet minus 2, and the host cells are the addresses
    next to the network and the broadcast address. *)
Lemma row_made_usable r :
  row_made r -> prefixlen (Net_IP_prefix r) <= 30 ->
  Usable_IP r = num_addresses (Net_IP_prefix r) - 2
  /\ First_host r = Host (network_address (Net_IP_prefix r) + 1)
  /\ Last_host r = Host (Broadcast r - 1).
Proof.
  intros (Hwf & _ & E) Hp.
  rewrite make_row_hosts in E by exact Hwf.
  rewrite E. simpl. rewrite len_hosts by exact Hwf.
  destruct (Z.eqb_spec (prefixlen (Net_IP_prefix r)) 31); [lia|].
  destruct (Z.eqb_spec (prefixlen (Net_IP_prefix r)) 32); [lia|].
  repeat split.
Qed.

(** C6 on the code: the tokens [0] and [-5] pass line 40, since [int]
    accepts them, and each is given a subnet of 192.168.1.0/24: a /31 for
    0 and, for -5, the /29 that [(-4).bit_length() = 3] leads to, which
    contains the /31. *)
Theorem C6_nonpositive_tokens_allocated :
  parse_hosts "10, 0, -5" = Some [10; 0; -5]
  /\ skuska (Cidr 3232235776 24) "10, 0, -5"
     = Table None
         [Record_row (mkRow 10 (mkNetwork 3232235776 28) 4294967280
                        (Host 3232235777) (Host 3232235790) 3232235791 14);
          Record_row (mkRow 0 (mkNetwork 3232235792 31) 4294967294
                        (Host 3232235793) (Host 3232235792) 3232235793 2);
          Record_row (mkRow (-5) (mkNetwork 3232235792 29) 4294967288
                        (Host 3232235793) (Host 3232235798) 3232235799 6)].
Proof. split; vm_compute; reflexivity. Qed.

(** C7 on the code: the request for 0 hosts in 192.168.1.0/24 is given the
    /31 subnet 192.168.1.0/31, whose 2 addresses minus 2 leave 0, and its
    row has the usable count 2 with the host cells 192.168.1.1 and
    192.168.1.0, not 0 and ['N/A']. *)
Theorem C7_slash_31_row :
  skuska (Cidr 3232235776 24) "0"
  = Table None
      [Record_row (mkRow 0 (mkNetwork 3232235776 31) 4294967294
                     (Host 3232235777) (Host 3232235776) 3232235777 2)]
  /\ num_addresses (mkNetwork 3232235776 31) - 2 = 0
  /\ len (hosts (mkNetwork 3232235776 31)) = 2.
Proof. repeat split; vm_compute; reflexivity. Qed.

(** ** More on one pass: what the guards let through *)

(** The other way round of [body_Continue]: a pass whose guards hold and
    whose addresses stay in range reaches its last statement. *)
Lemma body_pass P r s n :
  r + 2 <= num_addresses P ->
  prefixlen P <= new_prefix r ->
  ip_network (current_ip s) (new_prefix r) = Some n ->
  broadcast_address n <= broadcast_address P ->
  0 <= network_address n -> 1 <= broadcast_address n ->
  broadcast_address n + 1 < 2 ^ 32 ->
  network_address n <= broadcast_address n ->
  body P r s
  = Continue (mkState
                (results s ++ [make_row r n (network_address n + 1)
                                 (broadcast_address n - 1)])
                (broadcast_address n + 1)).
Proof.
  intros H1 H2 H3 H4 H5 H6 H7 H8. unfold body. rewrite H3.
  destruct (Z.ltb_spec (num_addresses P) (r + 2)); [lia|].
  destruct (Z.ltb_spec (new_prefix r) (prefixlen P)); [lia|].
  destruct (Z.ltb_spec (broadcast_address P) (broadcast_address n)); [lia|].
  unfold address_add, address_sub.
  assert (A : forall v, 0 <= v < 2 ^ 32 -> IPv4Address v = Some v).
  { intros v Hv. apply IPv4Address_Some. split; [reflexivity|exact Hv]. }
  rewrite !A by lia. reflexivity.
Qed.

(** The rows after a pass that breaks: those before, or those before and
    the row of this pass when line 120 has raised. *)
Lemma body_Break_results P r s m s' :
  body P r s = Break m s' ->
  results s' = results s
  \/ (m = Calculation_error
      /\ exists n,
           candidate P r s = Some n
           /\ broadcast_address n <= broadcast_address P
           /\ broadcast_address n + 1 >= 2 ^ 32
           /\ results s' =
              results s ++ [make_row r n (network_address n + 1)
                              (broadcast_address n - 1)]).
Proof.
  unfold body, candidate. intros H.
  repeat case_guard H; inversion H; subst; clear H; simpl;
    try (left; reflexivity).
  right. split; [reflexivity|]. exists i.
  unfold address_add, address_sub in *.
  apply IPv4Address_Some in G3, G4. destruct G3 as [-> _], G4 as [-> _].
  repeat split; try lia.
  unfold IPv4Address, ALL_ONES in G5.
  destruct (Z.ltb_spec (broadcast_address i + 1) 0),
    (Z.ltb_spec (2 ^ 32 - 1) (broadcast_address i + 1));
    simpl in G5; try discriminate; try lia.
  apply ip_network_well_formed in G1.
  pose proof (broadcast_value i G1). destruct G1 as (Hp & Hn & _ & _).
  pose proof (block_size_pos (32 - prefixlen i) ltac:(lia)). lia.
Qed.

(** X4. A pass that reaches its last statement moves the cursor forward
    and appends one row; a pass that breaks leaves the cursor where it
    was.  It holds for every host count, also where the non-strict
    construction has cleared bits of the cursor. *)
Theorem X4_cursor_advances (P : IPv4Network) (r : Z) (s : state) :
  (forall s', body P r s = Continue s' ->
     current_ip s < current_ip s'
     /\ List.length (results s') = S (List.length (results s)))
  /\ (forall m s', body P r s = Break m s' -> current_ip s' = current_ip s).
Proof.
  split.
  - intros s' Hb. apply body_Continue in Hb. destruct Hb as [n Hpass].
    destruct Hpass as [_ _ Hn _ Hres Hcur _].
    pose proof (ip_network_contains _ _ _ Hn) as Hin.
    pose proof (ip_network_well_formed _ _ _ Hn) as Hwf.
    pose proof (ip_network_Some _ _ _ Hn) as (_ & _ & Hpl & _).
    rewrite (broadcast_value n Hwf), Hpl in Hcur.
    split; [lia|]. rewrite Hres, length_app. simpl. lia.
  - intros m s' Hb. apply body_Break in Hb. tauto.
Qed.

Lemma body_no_Return P r s m :
  well_formed P -> 0 <= r -> body P r s <> Return m.
Proof.
  intros Hwf Hr Hb. apply body_Return in Hb.
  destruct Hb as (_ & Hfit & Hlt).
  rewrite num_addresses_value in Hfit by exact Hwf.
  pose proof (bits_needed_least r _ Hr Hfit).
  unfold new_prefix in Hlt. lia.
Qed.

Lemma reaches_In P L s r l :
  reaches P (initial P) L s (r :: l) -> In r L.
Proof.
  intros H. apply reaches_done in H. rewrite H.
  apply in_or_app. right. left. reflexivity.
Qed.

Lemma sort_desc_nil R : sort_desc R = [] -> R = [].
Proof.
  intros E. pose proof (sort_desc_perm R) as H. rewrite E in H.
  apply Permutation_nil in H. exact H.
Qed.

(** X1. On an IPv4 parent network (an [IPv4Network] that [ip_network]
    returns for a 32-bit address), a run on host counts that are not
    negative never shows the prefix error of line 76:
    a host count that passes the guard of line 63 needs no more host bits
    than the parent has.  Such a run always gets to the result window,
    unless the list is empty. *)
Theorem X1_prefix_check_never_fires
    (a p : Z) (P : IPv4Network) (R : list Z) :
  ip_network a p = Some P ->
  Forall (fun h => 0 <= h) R ->
  (forall r np pl, allocate P R <> No_table (Prefix_error r np pl))
  /\ (R <> [] -> exists m df, allocate P R = Table m df).
Proof.
  intros HP Hnn. apply ip_network_well_formed in HP.
  assert (K : forall m, allocate P R = No_table m ->
                        m = Input_error_no_hosts /\ R = []).
  { intros m. unfold allocate, vlsm.
    destruct (sort_desc R) as [|x L] eqn:E.
    - intros H. inversion H. split; [reflexivity|].
      apply sort_desc_nil. exact E.
    - pose proof (for_loop_reaches P (initial P) (x :: L) (x :: L)
                    (initial P) (reaches_start _ _ _)) as H.
      destruct (for_loop P (x :: L) (initial P)) as [[m'|] s|m'];
        try discriminate.
      intros T. exfalso. destruct H as (s1 & r & l' & Hreach & Hb).
      apply (body_no_Return P r s1 m' HP); [|exact Hb].
      apply reaches_In in Hreach. rewrite <- E in Hreach.
      apply sort_desc_Forall in Hnn. rewrite Forall_forall in Hnn. auto. }
  split.
  - intros r np pl H. apply K in H. destruct H as [H _]. discriminate H.
  - intros Hne.
    assert (D : (exists m, allocate P R = No_table m)
                \/ exists m df, allocate P R = Table m df).
    { destruct (allocate P R) as [m|m df];
        [left; exists m | right; exists m, df]; reflexivity. }
    destruct D as [[m E]|D]; [|exact D].
    apply K in E. tauto.
Qed.

Lemma X1_prefix_check_never_fires_witness :
  (forall r np pl,
      allocate net24 [0; 200; 50] <> No_table (Prefix_error r np pl))
  /\ ([0; 200; 50] <> [] ->
      exists m df, allocate net24 [0; 200; 50] = Table m df).
Proof.
  apply (X1_prefix_check_never_fires 3232235776 24 net24 [0; 200; 50]).
  - reflexivity.
  - repeat constructor; discriminate.
Defined.

(** Once a row has been made, every host count still to come passes the
    guard of line 63: it is not greater than one that has passed. *)
Lemma reaches_space P L s l :
  StronglySorted (fun x y => y <= x) L ->
  reaches P (initial P) L s l ->
  results s <> [] ->
  Forall (fun x => x + 2 <= num_addresses P) l.
Proof.
  intros Hs H. induction H as [|s r l s' Hr IH Hb]; intros Hne.
  - simpl in Hne. contradiction.
  - pose proof (reaches_done _ _ _ _ Hr) as Hdone.
    rewrite Hdone in Hs. apply sorted_suffix in Hs.
    apply body_Continue in Hb. destruct Hb as [n [Hfit _ _ _ _ _ _]].
    revert Hs. apply Forall_impl. intros x Hx. lia.
Qed.

(** X2. The message of line 64 can only come in the first pass: it names
    the greatest host count, which plus 2 exceeds the number of addresses
    of the parent, and the table shown after it is the placeholder row. *)
Theorem X2_space_message_first_pass
    (P : IPv4Network) (R : list Z) (r : Z) (df : list table_row) :
  allocate P R = Table (Some (Allocation_error_space r)) df ->
  df = [Error_row]
  /\ num_addresses P < r + 2
  /\ In r R
  /\ Forall (fun h => h <= r) R.
Proof.
  unfold allocate, vlsm.
  destruct (sort_desc R) as [|x L] eqn:E; [discriminate|].
  pose proof (for_loop_reaches P (initial P) (x :: L) (x :: L) (initial P)
                (reaches_start _ _ _)) as H.
  destruct (for_loop P (x :: L) (initial P)) as [[m'|] s|m'];
    try discriminate.
  intros T. inversion T; subst; clear T.
  destruct H as (s1 & r1 & l' & Hreach & Hb).
  pose proof (sort_desc_sorted R) as Hs. rewrite E in Hs.
  apply body_Break in Hb.
  destruct Hb as [_ [(Em & Hlt & Hres)|[(n & Em & _)|(Em & _)]]];
    try discriminate Em.
  inversion Em; subst r1; clear Em.
  assert (Hnil : results s1 = []).
  { destruct (results s1) as [|y ys] eqn:Er; [reflexivity|exfalso].
    pose proof (reaches_space P _ _ _ Hs Hreach) as Hsp.
    rewrite Er in Hsp. specialize (Hsp ltac:(discriminate)).
    inversion Hsp; subst. lia. }
  pose proof (reaches_done _ _ _ _ Hreach) as Hdone.
  rewrite Hnil in Hdone. simpl in Hdone.
  rewrite Hres, Hnil. split; [reflexivity|]. split; [exact Hlt|].
  assert (Hall : Forall (fun h => h <= r) (x :: L)).
  { rewrite Hdone. constructor; [lia|].
    rewrite Hdone in Hs. inversion Hs; assumption. }
  rewrite <- E in Hall, Hdone.
  pose proof (sort_desc_perm R) as Hp.
  split.
  - apply (Permutation_in _ Hp). rewrite Hdone. left. reflexivity.
  - apply (Permutation_Forall Hp). exact Hall.
Qed.

Lemma X2_space_message_first_pass_witness :
  [Error_row] = [Error_row]
  /\ num_addresses net24 < 300 + 2
  /\ In 300 [20; 300; 50]
  /\ Forall (fun h => h <= 300) [20; 300; 50].
Proof.
  apply (X2_space_message_first_pass net24 [20; 300; 50] 300 [Error_row]).
  vm_compute. reflexivity.
Defined.

(** ** The table of a run, with or without a message *)

(** Where a run that shows the table has stopped, and which rows the
    table is made of. *)
Lemma vlsm_Table_inv P L m df :
  vlsm P L = Table m df ->
  exists s l rows,
    reaches P (initial P) L s l /\ df = dataframe rows
    /\ ((m = None /\ l = [] /\ rows = results s)
        \/ (exists e r l' s',
              m = Some e /\ l = r :: l' /\ body P r s = Break e s'
              /\ results s' = results s /\ rows = results s)
        \/ (exists r l' n,
              m = Some Calculation_error /\ l = r :: l'
              /\ candidate P r s = Some n
              /\ broadcast_address n <= broadcast_address P
              /\ broadcast_address n + 1 >= 2 ^ 32
              /\ rows = results s ++ [make_row r n (network_address n + 1)
                                       (broadcast_address n - 1)])).
Proof.
  unfold vlsm. destruct L as [|x L]; [discriminate|].
  pose proof (for_loop_reaches P (initial P) (x :: L) (x :: L) (initial P)
                (reaches_start _ _ _)) as H.
  destruct (for_loop P (x :: L) (initial P)) as [[e|] s|e];
    try discriminate; intros T; inversion T; subst; clear T.
  - destruct H as (s1 & r & l' & Hreach & Hb).
    destruct (body_Break_results _ _ _ _ _ Hb)
      as [Hres|(-> & n & Hc & Hle & Hge & Hres)].
    + exists s1, (r :: l'), (results s1). rewrite Hres.
      split; [exact Hreach|]. split; [reflexivity|].
      right; left. exists e, r, l', s. tauto.
    + exists s1, (r :: l'), (results s). 
      split; [exact Hreach|]. split; [reflexivity|].
      right; right. exists r, l', n. rewrite Hres. tauto.
  - exists s, [], (results s). split; [exact H|].
    split; [reflexivity|]. left. tauto.
Qed.

(** The rows of any table are rows the loop has made for subnets inside
    the parent, and they request the first host counts of the list. *)
Lemma vlsm_rows P L m df :
  well_formed P ->
  vlsm P L = Table m df ->
  exists rows rest,
    df = dataframe rows
    /\ L = map Requested rows ++ rest
    /\ (m = None -> rest = [])
    /\ Forall row_made rows /\ Forall (row_within P) rows.
Proof.
  intros HP H. apply vlsm_Table_inv in H.
  destruct H as (s & l & rows & Hreach & -> & Hcase).
  pose proof (reaches_done _ _ _ _ Hreach) as Hdone.
  pose proof (reaches_rows_made _ _ _ _ Hreach) as Hmade.
  destruct (reaches_within P HP _ _ _ Hreach) as [Hlow Hin].
  destruct Hcase as [(-> & -> & ->)|[(e & r & l' & s' & -> & -> & _ & _ & ->)|
    (r & l' & n & -> & -> & Hc & Hle & Hge & ->)]].
  - exists (results s), []. repeat split; auto.
  - exists (results s), (r :: l'). repeat split; auto. intros; discriminate.
  - exists (results s ++ [make_row r n (network_address n + 1)
                            (broadcast_address n - 1)]), l'.
    apply candidate_Some in Hc. destruct Hc as (Hfit & Hpre & Hn).
    pose proof (ip_network_well_formed _ _ _ Hn) as Hwf.
    pose proof (ip_network_Some _ _ _ Hn) as (_ & Hnp & Hpl & _).
    split; [reflexivity|]. split.
    { rewrite map_app, <- app_assoc. simpl.
      rewrite make_row_Requested. exact Hdone. }
    split; [intros; discriminate|].
    split; apply Forall_app; (split; [assumption|]);
      (constructor; [|constructor]).
    + unfold row_made. rewrite make_row_Net, make_row_Requested. tauto.
    + unfold row_within. rewrite make_row_Net, make_row_Broadcast.
      pose proof (broadcast_value n Hwf) as Hb.
      destruct Hwf as (Hp' & _).
      pose proof (block_size_pos (32 - prefixlen n) ltac:(lia)).
      destruct HP as (HpP & _ & HdP & _).
      assert (network_address P <= network_address n).
      { apply (ip_network_floor _ _ _ _ Hn); [|exact Hlow].
        apply Z.divide_trans with (block_size (32 - prefixlen P));
          [apply block_size_divide; lia | exact HdP]. }
      repeat split; lia.
Qed.

(** X8. The table of the result window is never empty and never mixes
    the placeholder row with rows of subnets: it is the placeholder row
    alone, and then a message has been shown before, or it holds the rows
    made, at least one.  The rows request the first host counts of the
    descending list, all of them when no message has been shown. *)
Theorem X8_table_shape
    (P : IPv4Network) (R : list Z) (m : option message)
    (df : list table_row) :
  allocate P R = Table m df ->
  exists rows rest,
    sort_desc R = map Requested rows ++ rest
    /\ (m = None -> rest = [])
    /\ ((rows = [] /\ df = [Error_row] /\ m <> None)
        \/ (rows <> [] /\ df = map Record_row rows)).
Proof.
  unfold allocate. intros H.
  assert (Hne : sort_desc R <> []).
  { intros E. rewrite E in H. discriminate H. }
  apply vlsm_Table_inv in H.
  destruct H as (s & l & rows & Hreach & -> & Hcase).
  pose proof (reaches_done _ _ _ _ Hreach) as Hdone.
  assert (K : exists rest, sort_desc R = map Requested rows ++ rest
                           /\ (m = None -> rest = [])).
  { destruct Hcase as [(-> & -> & ->)|[(e & r & l' & s' & -> & -> & _ & _ & ->)|
      (r & l' & n & -> & -> & _ & _ & _ & ->)]].
    - exists []. auto.
    - exists (r :: l'). split; [exact Hdone|discriminate].
    - exists l'. split; [|discriminate].
      rewrite map_app, <- app_assoc. simpl.
      rewrite make_row_Requested. exact Hdone. }
  destruct K as (rest & E & Hm). exists rows, rest.
  split; [exact E|]. split; [exact Hm|].
  destruct rows as [|x rows].
  - left. split; [reflexivity|]. split; [reflexivity|].
    intros ->. rewrite (Hm eq_refl) in E. simpl in E. contradiction.
  - right. split; [discriminate|reflexivity].
Qed.

Lemma X8_table_shape_witness :
  exists rows rest,
    sort_desc [100; 100; 100] = map Requested rows ++ rest
    /\ (Some (Allocation_error_boundary 100 (mkNetwork 3232236032 25)) = None
        -> rest = [])
    /\ ((rows = []
         /\ [Record_row row_100_first; Record_row row_100_second]
            = [Error_row]
         /\ Some (Allocation_error_boundary 100 (mkNetwork 3232236032 25))
            <> None)
        \/ (rows <> []
            /\ [Record_row row_100_first; Record_row row_100_second]
               = map Record_row rows)).
Proof.
  apply (X8_table_shape net24 [100; 100; 100]).
  vm_compute. reflexivity.
Defined.

Lemma bits_needed_ge_1 r : 0 <= r -> 1 <= bits_needed r.
Proof.
  intros H. change 1 with (bits_needed 0). apply bits_needed_mono. lia.
Qed.

(** For a host count that is not negative, the only statement of the
    [try] block that can raise is line 120, after the [append]. *)
Lemma body_calculation_error P r s s' :
  well_formed P -> 0 <= r -> 0 <= current_ip s < 2 ^ 32 ->
  body P r s = Break Calculation_error s' ->
  exists n,
    candidate P r s = Some n
    /\ broadcast_address n = 2 ^ 32 - 1
    /\ broadcast_address P = 2 ^ 32 - 1
    /\ results s' = results s ++ [make_row r n (network_address n + 1)
                                    (broadcast_address n - 1)].
Proof.
  intros HP Hr Hcur Hb.
  pose proof (broadcast_value P HP) as HbP. destruct HP as (HpP & _ & _ & HuP).
  pose proof (bits_needed_ge_1 r Hr) as Hbits.
  assert (Hfit : r + 2 <= num_addresses P
                 /\ prefixlen P <= new_prefix r).
  { unfold body in Hb.
    destruct (Z.ltb_spec (num_addresses P) (r + 2)); [discriminate|].
    destruct (Z.ltb_spec (new_prefix r) (prefixlen P)); [discriminate|].
    lia. }
  destruct Hfit as [Hfit Hpre].
  destruct (ip_network_total (current_ip s) (new_prefix r) Hcur)
    as [n Hn]; [unfold new_prefix in *; lia|].
  pose proof (ip_network_well_formed _ _ _ Hn) as Hwf.
  pose proof (ip_network_Some _ _ _ Hn) as (_ & _ & Hpl & _).
  pose proof (broadcast_value n Hwf) as Hbn.
  destruct Hwf as (_ & Hn0 & _ & Hun).
  assert (block_size 1 <= block_size (32 - prefixlen n))
    by (apply block_size_le; unfold new_prefix in Hpl; lia).
  change (block_size 1) with 2 in *.
  destruct (body_Break_results _ _ _ _ _ Hb)
    as [Hres|(_ & n' & Hc & Hle & Hge & Hres)].
  - exfalso. unfold body in Hb. rewrite Hn in Hb.
    destruct (Z.ltb_spec (num_addresses P) (r + 2)); [lia|].
    destruct (Z.ltb_spec (new_prefix r) (prefixlen P)); [lia|].
    destruct (Z.ltb_spec (broadcast_address P) (broadcast_address n));
      [discriminate|].
    unfold address_add, address_sub in Hb.
    assert (A : forall v, 0 <= v < 2 ^ 32 -> IPv4Address v = Some v).
    { intros v Hv. apply IPv4Address_Some. split; [reflexivity|exact Hv]. }
    rewrite (A (network_address n + 1)), (A (broadcast_address n - 1))
      in Hb by lia.
    destruct (IPv4Address (broadcast_address n + 1));
      inversion Hb; subst; simpl in Hres.
    apply (f_equal (@List.length row)) in Hres.
    rewrite length_app in Hres. simpl in Hres. lia.
  - exists n'. apply candidate_Some in Hc as Hc'.
    destruct Hc' as (_ & _ & Hn'). rewrite Hn in Hn'.
    inversion Hn'; subst n'. repeat split; try assumption; lia.
Qed.

(** X3. On host counts that are not negative the calculation error of
    line 123 has one cause: the subnet just made ends at 255.255.255.255,
    the last address of the parent, and the address after it does not
    exist.  Its row has been appended before, so the table shown after
    the message ends with the row of that subnet. *)
Theorem X3_calculation_error_at_top
    (a p : Z) (P : IPv4Network) (R : list Z) (df : list table_row) :
  ip_network a p = Some P ->
  Forall (fun h => 0 <= h) R ->
  allocate P R = Table (Some Calculation_error) df ->
  broadcast_address P = 2 ^ 32 - 1
  /\ exists rows r rest,
       df = map Record_row (rows ++ [r])
       /\ Broadcast r = 2 ^ 32 - 1
       /\ sort_desc R = map Requested (rows ++ [r]) ++ rest.
Proof.
  intros HP Hnn H. apply ip_network_well_formed in HP.
  unfold allocate in H. apply vlsm_Table_inv in H.
  destruct H as (s & l & rows & Hreach & -> & Hcase).
  pose proof (reaches_done _ _ _ _ Hreach) as Hdone.
  pose proof (reaches_cursor_range P HP _ _ _ Hreach) as Hcur.
  apply sort_desc_Forall in Hnn. rewrite Forall_forall in Hnn.
  assert (K : forall r l' s', l = r :: l' ->
                body P r s = Break Calculation_error s' ->
                broadcast_address P = 2 ^ 32 - 1
                /\ exists n, broadcast_address n = 2 ^ 32 - 1
                   /\ results s' =
                      results s ++ [make_row r n (network_address n + 1)
                                      (broadcast_address n - 1)]).
  { intros r l' s' -> Hb.
    destruct (body_calculation_error P r s s' HP) as (n & _ & H1 & H2 & H3);
      try assumption.
    - apply Hnn. eapply reaches_In. exact Hreach.
    - split; [exact H2|]. exists n. split; assumption. }
  destruct Hcase as [(E & _)|[(e & r & l' & s' & E & -> & Hb & Hres & ->)|
    (r & l' & n & _ & -> & Hc & Hle & Hge & ->)]].
  - discriminate E.
  - exfalso. inversion E; subst e.
    destruct (K r l' s' eq_refl Hb) as (_ & n & _ & Hres').
    rewrite Hres in Hres'. apply (f_equal (@List.length row)) in Hres'.
    rewrite length_app in Hres'. simpl in Hres'. lia.
  - pose proof (broadcast_value P HP) as HbP.
    destruct HP as (_ & _ & _ & HuP).
    split; [lia|].
    exists (results s), (make_row r n (network_address n + 1)
                           (broadcast_address n - 1)), l'.
    assert (Ed : dataframe (results s ++ [make_row r n (network_address n + 1)
                                            (broadcast_address n - 1)])
                 = map Record_row
                     (results s ++ [make_row r n (network_address n + 1)
                                      (broadcast_address n - 1)])).
    { unfold dataframe.
      destruct (results s ++ _) eqn:Ea; [|reflexivity].
      apply app_eq_nil in Ea. destruct Ea as [_ Ea]. discriminate Ea. }
    split; [exact Ed|]. split.
    + rewrite make_row_Broadcast. lia.
    + rewrite map_app, <- app_assoc. simpl.
      rewrite make_row_Requested. exact Hdone.
Qed.

Lemma X3_calculation_error_at_top_witness :
  broadcast_address (mkNetwork 4294967040 24) = 2 ^ 32 - 1
  /\ exists rows r rest,
       [Record_row (mkRow 100 (mkNetwork 4294967040 25) 4294967168
                      (Host 4294967041) (Host 4294967166) 4294967167 126);
        Record_row (mkRow 100 (mkNetwork 4294967168 25) 4294967168
                      (Host 4294967169) (Host 4294967294) 4294967295 126)]
       = map Record_row (rows ++ [r])
       /\ Broadcast r = 2 ^ 32 - 1
       /\ sort_desc [100; 100] = map Requested (rows ++ [r]) ++ rest.
Proof.
  apply (X3_calculation_error_at_top 4294967040 24
           (mkNetwork 4294967040 24) [100; 100]).
  - reflexivity.
  - repeat constructor; discriminate.
  - vm_compute. reflexivity.
Defined.

(** ** The columns of a row *)

Lemma row_made_fields r :
  row_made r ->
  let n := Net_IP_prefix r in
  Mask r = netmask n
  /\ First_host r = Host (network_address n + 1)
  /\ Last_host r = Host (broadcast_address n - 1)
  /\ Broadcast r = broadcast_address n
  /\ Usable_IP r = len (hosts n).
Proof.
  intros (Hwf & _ & E) n. fold n in E.
  rewrite make_row_hosts in E by exact Hwf.
  rewrite E. simpl. repeat split.
Qed.

(** The rows of the table of a run, with what the loop has put in them. *)
Lemma allocate_rows P R m df r :
  well_formed P ->
  allocate P R = Table m df -> In (Record_row r) df ->
  row_made r /\ row_within P r.
Proof.
  intros HP H Hin. unfold allocate in H.
  apply (vlsm_rows P _ _ _ HP) in H.
  destruct H as (rows & rest & -> & _ & _ & Hmade & Hwithin).
  assert (Hr : In r rows).
  { unfold dataframe in Hin. destruct rows as [|x rows].
    - destruct Hin as [E|[]]. discriminate E.
    - apply in_map_iff in Hin. destruct Hin as (r' & E & Hin).
      inversion E; subst. exact Hin. }
  rewrite Forall_forall in Hmade, Hwithin. auto.
Qed.

(** X6. The block of a positive host count is the least power of two that
    holds the hosts and the two reserved addresses, so it is never twice
    as large as needed: in every table (also one shown after a message) a
    row for a positive host count [h] has a subnet of
    [2^bits_needed(h)] addresses, less than [2 * (h + 2)] and no more
    than the parent has, and a usable count between [h] and [2 * h]. *)
Theorem X6_block_less_than_twice_the_need
    (a p : Z) (P : IPv4Network) (R : list Z) (m : option message)
    (df : list table_row) (r : row) :
  ip_network a p = Some P ->
  allocate P R = Table m df ->
  In (Record_row r) df ->
  0 < Requested r ->
  num_addresses (Net_IP_prefix r) = block_size (bits_needed (Requested r))
  /\ Requested r + 2 <= num_addresses (Net_IP_prefix r)
                     < 2 * (Requested r + 2)
  /\ num_addresses (Net_IP_prefix r) <= num_addresses P
  /\ Requested r <= Usable_IP r <= 2 * Requested r.
Proof.
  intros HP H Hin Hpos. apply ip_network_well_formed in HP.
  destruct (allocate_rows P R m df r HP H Hin) as [Hmade Hwithin].
  destruct (row_made_fields r Hmade) as (_ & _ & _ & Hb & Hu).
  destruct Hmade as (Hwf & Hpl & _).
  destruct Hwithin as (W1 & W2 & W3 & W4).
  pose proof (bits_needed_ge_2 (Requested r) ltac:(lia)) as Hbits.
  pose proof (bits_needed_enough (Requested r) ltac:(lia)) as Hroom.
  assert (Hhalf : block_size (bits_needed (Requested r))
                  <= 2 * (Requested r + 1)).
  { unfold bits_needed, block_size.
    pose proof (bit_length_spec (Requested r + 1) ltac:(lia)) as [L _].
    replace (bit_length (Requested r + 1))
      with (Z.succ (bit_length (Requested r + 1) - 1)) at 1 by lia.
    rewrite Z.pow_succ_r by (unfold bits_needed in Hbits; lia). lia. }
  unfold new_prefix in Hpl.
  rewrite Hu, len_hosts by exact Hwf.
  rewrite (num_addresses_value _ Hwf).
  replace (32 - prefixlen (Net_IP_prefix r))
    with (bits_needed (Requested r)) by lia.
  destruct (Z.eqb_spec (prefixlen (Net_IP_prefix r)) 31); [lia|].
  destruct (Z.eqb_spec (prefixlen (Net_IP_prefix r)) 32); [lia|].
  split; [reflexivity|]. split; [lia|]. split; [|lia].
  rewrite <- (Z.sub_add (network_address P) (broadcast_address P)) in W4.
  unfold num_addresses at 1.
  pose proof (broadcast_value _ Hwf) as Hbn.
  replace (32 - prefixlen (Net_IP_prefix r))
    with (bits_needed (Requested r)) in Hbn by lia.
  lia.
Qed.

Lemma X6_block_less_than_twice_the_need_witness :
  num_addresses (Net_IP_prefix row_100_second)
  = block_size (bits_needed (Requested row_100_second))
  /\ Requested row_100_second + 2
     <= num_addresses (Net_IP_prefix row_100_second)
     < 2 * (Requested row_100_second + 2)
  /\ num_addresses (Net_IP_prefix row_100_second) <= num_addresses net24
  /\ Requested row_100_second <= Usable_IP row_100_second
                              <= 2 * Requested row_100_second.
Proof.
  apply (X6_block_less_than_twice_the_need 3232235776 24 net24
           [100; 100; 100]
           (Some (Allocation_error_boundary 100 (mkNetwork 3232236032 25)))
           [Record_row row_100_first; Record_row row_100_second]).
  - reflexivity.
  - vm_compute. reflexivity.
  - right. left. reflexivity.
  - reflexivity.
Defined.

(** X7. The columns of a row agree with each other.  In every table, a row
    for a host count that is not negative has a mask that with the number
    of addresses of the subnet adds up to 2^32, a broadcast address that
    is the last address of the subnet, and host cells that are never
    ['N/A']: the address after the network address and the address before
    the broadcast address.  Its usable count is the number of addresses
    minus 2 for a positive host count, and 2 (both addresses of a /31) for
    the host count 0. *)
Theorem X7_row_columns
    (a p : Z) (P : IPv4Network) (R : list Z) (m : option message)
    (df : list table_row) (r : row) :
  ip_network a p = Some P ->
  allocate P R = Table m df ->
  In (Record_row r) df ->
  0 <= Requested r ->
  let n := Net_IP_prefix r in
  prefixlen n = new_prefix (Requested r)
  /\ Mask r + num_addresses n = 2 ^ 32
  /\ Broadcast r = network_address n + num_addresses n - 1
  /\ First_host r = Host (network_address n + 1)
  /\ Last_host r = Host (Broadcast r - 1)
  /\ (0 < Requested r ->
      Usable_IP r = num_addresses n - 2
      /\ network_address n + 1 <= Broadcast r - 1)
  /\ (Requested r = 0 -> Usable_IP r = 2 /\ num_addresses n = 2).
Proof.
  intros HP H Hin Hnn n. apply ip_network_well_formed in HP.
  destruct (allocate_rows P R m df r HP H Hin) as [Hmade _].
  destruct (row_made_fields r Hmade) as (Hm & Hf & Hl & Hb & Hu).
  fold n in Hm, Hf, Hl, Hb, Hu.
  destruct Hmade as (Hwf & Hpl & _). fold n in Hwf, Hpl.
  pose proof (num_addresses_value n Hwf) as Hnum.
  pose proof (broadcast_value n Hwf) as Hbn.
  pose proof (bits_needed_ge_1 (Requested r) Hnn) as Hbits.
  assert (Hp : 0 <= prefixlen n <= 32) by (destruct Hwf; assumption).
  unfold new_prefix in Hpl.
  split; [unfold new_prefix; lia|].
  split.
  { rewrite Hm, Hnum. unfold netmask.
    rewrite netmask_of_value by exact Hp. unfold block_size. lia. }
  split; [lia|]. split; [exact Hf|]. split; [rewrite Hb; exact Hl|].
  rewrite Hu, len_hosts by exact Hwf. split.
  - intros Hpos.
    pose proof (bits_needed_ge_2 (Requested r) ltac:(lia)).
    destruct (Z.eqb_spec (prefixlen n) 31); [lia|].
    destruct (Z.eqb_spec (prefixlen n) 32); [lia|].
    split; [reflexivity|].
    assert (block_size 2 <= block_size (32 - prefixlen n))
      by (apply block_size_le; lia).
    change (block_size 2) with 4 in *. lia.
  - intros E0. rewrite E0 in Hpl. change (bits_needed 0) with 1 in Hpl.
    assert (E31 : prefixlen n = 31) by lia.
    rewrite Hnum, E31. split; reflexivity.
Qed.

Lemma X7_row_columns_witness :
  let n := Net_IP_prefix row_100_second in
  prefixlen n = new_prefix (Requested row_100_second)
  /\ Mask row_100_second + num_addresses n = 2 ^ 32
  /\ Broadcast row_100_second = network_address n + num_addresses n - 1
  /\ First_host row_100_second = Host (network_address n + 1)
  /\ Last_host row_100_second = Host (Broadcast row_100_second - 1)
  /\ (0 < Requested row_100_second ->
      Usable_IP row_100_second = num_addresses n - 2
      /\ network_address n + 1 <= Broadcast row_100_second - 1)
  /\ (Requested row_100_second = 0 ->
      Usable_IP row_100_second = 2 /\ num_addresses n = 2).
Proof.
  apply (X7_row_columns 3232235776 24 net24 [100; 100; 100]
           (Some (Allocation_error_boundary 100 (mkNetwork 3232236032 25)))
           [Record_row row_100_first; Record_row row_100_second]).
  - reflexivity.
  - vm_compute. reflexivity.
  - right. left. reflexivity.
  - discriminate.
Defined.

(** ** The order of the rows *)

Lemma sorted_nth {A} (Rel : A -> A -> Prop) (l : list A) :
  StronglySorted Rel l ->
  forall i j x y, (i < j)%nat ->
    nth_error l i = Some x -> nth_error l j = Some y -> Rel x y.
Proof.
  induction 1 as [|z l Hs IH Hall]; intros i j x y Hij Ex Ey.
  - destruct i; discriminate.
  - destruct j as [|j]; [lia|]. simpl in Ey.
    destruct i as [|i]; simpl in Ex.
    + inversion Ex; subst. rewrite Forall_forall in Hall.
      apply Hall. eapply nth_error_In. exact Ey.
    + apply (IH i j); [lia|assumption|assumption].
Qed.

Lemma dataframe_nth rows i r :
  nth_error (dataframe rows) i = Some (Record_row r) ->
  nth_error rows i = Some r.
Proof.
  unfold dataframe. destruct rows as [|x rows].
  - destruct i as [|[|i]]; simpl; intros E; discriminate E.
  - rewrite nth_error_map.
    destruct (nth_error (x :: rows) i); simpl; intros E; inversion E.
    reflexivity.
Qed.

(** X9. The table lists the largest subnets first.  On host counts that
    are not negative, a row further down in any table requests no more
    hosts, has a prefix length that is no shorter and a subnet that is no
    larger than a row above it. *)
Theorem X9_largest_first
    (a p : Z) (P : IPv4Network) (R : list Z) (m : option message)
    (df : list table_row) (i j : nat) (r1 r2 : row) :
  ip_network a p = Some P ->
  Forall (fun h => 0 <= h) R ->
  allocate P R = Table m df ->
  (i < j)%nat ->
  nth_error df i = Some (Record_row r1) ->
  nth_error df j = Some (Record_row r2) ->
  Requested r2 <= Requested r1
  /\ prefixlen (Net_IP_prefix r1) <= prefixlen (Net_IP_prefix r2)
  /\ num_addresses (Net_IP_prefix r2) <= num_addresses (Net_IP_prefix r1).
Proof.
  intros HP Hnn H Hij E1 E2. apply ip_network_well_formed in HP.
  unfold allocate in H. apply (vlsm_rows P _ _ _ HP) in H.
  destruct H as (rows & rest & -> & Hdone & _ & Hmade & _).
  apply dataframe_nth in E1, E2.
  assert (Hreq : forall k r, nth_error rows k = Some r ->
                   nth_error (sort_desc R) k = Some (Requested r)).
  { intros k r E. rewrite Hdone.
    rewrite nth_error_app1
      by (rewrite length_map; apply nth_error_Some; congruence).
    rewrite nth_error_map, E. reflexivity. }
  pose proof (sorted_nth _ _ (sort_desc_sorted R) i j _ _ Hij
                (Hreq _ _ E1) (Hreq _ _ E2)) as Hle.
  simpl in Hle.
  apply sort_desc_Forall in Hnn. rewrite Forall_forall in Hnn.
  assert (H2 : 0 <= Requested r2).
  { apply Hnn. eapply nth_error_In. apply (Hreq _ _ E2). }
  pose proof (bits_needed_mono (Requested r1) (Requested r2)
                ltac:(lia)) as Hbits.
  pose proof (bit_length_nonneg (Requested r2 + 1)) as Hb2.
  fold (bits_needed (Requested r2)) in Hb2.
  rewrite Forall_forall in Hmade.
  destruct (Hmade r1 (nth_error_In _ _ E1)) as (Hwf1 & Hpl1 & _).
  destruct (Hmade r2 (nth_error_In _ _ E2)) as (Hwf2 & Hpl2 & _).
  unfold new_prefix in Hpl1, Hpl2.
  split; [exact Hle|]. split; [lia|].
  rewrite !num_addresses_value by assumption.
  apply block_size_le. lia.
Qed.

Lemma X9_largest_first_witness :
  Requested (mkRow 20 (mkNetwork 3232235968 27) 4294967264
               (Host 3232235969) (Host 3232235998) 3232235999 30)
    <= Requested row_100_first
  /\ prefixlen (Net_IP_prefix row_100_first) <= 27
  /\ num_addresses (mkNetwork 3232235968 27)
     <= num_addresses (Net_IP_prefix row_100_first).
Proof.
  apply (X9_largest_first 3232235776 24 net24 [20; 100; 50] None
           [Record_row row_100_first;
            Record_row (mkRow 50 (mkNetwork 3232235904 26) 4294967232
                         (Host 3232235905) (Host 3232235966) 3232235967 62);
            Record_row (mkRow 20 (mkNetwork 3232235968 27) 4294967264
                         (Host 3232235969) (Host 3232235998) 3232235999 30)]
           0%nat 2%nat).
  - reflexivity.
  - repeat constructor; discriminate.
  - vm_compute. reflexivity.
  - lia.
  - reflexivity.
  - reflexivity.
Defined.

(** ** When a run succeeds *)

Lemma total_blocks_app l l' :
  total_blocks (l ++ l') = total_blocks l + total_blocks l'.
Proof. induction l as [|x l IH]; simpl; lia. Qed.

Lemma total_blocks_perm l l' :
  Permutation l l' -> total_blocks l = total_blocks l'.
Proof. induction 1; simpl; lia. Qed.

Lemma total_blocks_nonneg l : 0 <= total_blocks l.
Proof.
  induction l as [|x l IH]; simpl; [lia|].
  pose proof (block_size_pos (bits_needed x) (bit_length_nonneg (x + 1))).
  lia.
Qed.

Lemma reaches_cursor_end P L s l :
  well_formed P ->
  reaches P (initial P) L s l ->
  current_ip s <= broadcast_address P + 1.
Proof.
  intros HP H. destruct H as [|s r l s' Hr Hb].
  - simpl. rewrite (broadcast_value P HP).
    destruct HP as (Hp & _).
    pose proof (block_size_pos (32 - prefixlen P) ltac:(lia)). lia.
  - apply body_Continue in Hb. destruct Hb as [n [_ _ _ Hle _ Hcur _]]. lia.
Qed.

Section Packing.

Variable P : IPv4Network.
Hypothesis wfP : well_formed P.

Variable L : list Z.
Hypothesis L_sorted : StronglySorted (fun x y => y <= x) L.
Hypothesis L_nonneg : Forall (fun h => 0 <= h) L.

(** In a run on a descending list the cursor has moved by the blocks of
    the host counts processed: no address is skipped. *)
Lemma reaches_total s l :
  reaches P (initial P) L s l ->
  current_ip s
  = network_address P + total_blocks (map Requested (results s)).
Proof.
  induction 1 as [|s r l s' Hr IH Hb].
  - simpl. lia.
  - pose proof (reaches_run_inv P wfP L L_sorted L_nonneg _ _ Hr)
      as [_ Hal _ _].
    apply body_Continue in Hb. destruct Hb as [n Hpass].
    destruct (pass_block P wfP _ _ _ _ Hpass) as (_ & _ & Hbits & Hbc & _).
    destruct Hpass as [Hs Hp Hn Hbd Hres Hc Hrange].
    assert (Hnet : network_address n = current_ip s).
    { apply (ip_network_aligned _ _ _ Hn).
      replace (32 - new_prefix r) with (bits_needed r)
        by (unfold new_prefix; lia).
      apply Hal; [left; reflexivity | exact Hs]. }
    rewrite Hres, map_app, total_blocks_app. simpl.
    rewrite make_row_Requested. lia.
Qed.

(** If the blocks still to come fit between the cursor and the end of the
    parent, and end before the last IPv4 address, the loop goes through. *)
Lemma for_loop_succeeds : forall l s,
  reaches P (initial P) L s l ->
  current_ip s + total_blocks l <= broadcast_address P + 1 ->
  current_ip s + total_blocks l < 2 ^ 32 ->
  exists s', for_loop P l s = Fell None s'.
Proof.
  induction l as [|r l IH]; intros s Hreach Hfit Htop.
  - exists s. reflexivity.
  - simpl in Hfit, Htop.
    pose proof (reaches_run_inv P wfP L L_sorted L_nonneg _ _ Hreach)
      as [_ Hal _ _].
    pose proof (reaches_cursor_range P wfP _ _ _ Hreach) as Hcur.
    destruct (reaches_within P wfP _ _ _ Hreach) as [Hlow _].
    assert (Hr : 0 <= r).
    { rewrite Forall_forall in L_nonneg. apply L_nonneg.
      eapply reaches_In. exact Hreach. }
    pose proof (bits_needed_enough r Hr) as Hroom.
    pose proof (bits_needed_ge_1 r Hr) as Hb1.
    pose proof (total_blocks_nonneg l) as Ht.
    pose proof (broadcast_value P wfP) as HbP.
    pose proof (num_addresses_value P wfP) as Hnum.
    assert (Hsp : r + 2 <= num_addresses P) by lia.
    assert (Hbits : bits_needed r <= 32 - prefixlen P).
    { apply bits_needed_least; [exact Hr|]. lia. }
    assert (HpP : 0 <= prefixlen P <= 32) by (destruct wfP; assumption).
    destruct (ip_network_total (current_ip s) (new_prefix r) Hcur)
      as [n Hn]; [unfold new_prefix; lia|].
    pose proof (ip_network_well_formed _ _ _ Hn) as Hwf.
    pose proof (ip_network_Some _ _ _ Hn) as (_ & _ & Hpl & _).
    assert (Hnet : network_address n = current_ip s).
    { apply (ip_network_aligned _ _ _ Hn).
      replace (32 - new_prefix r) with (bits_needed r)
        by (unfold new_prefix; lia).
      apply Hal; [left; reflexivity | exact Hsp]. }
    pose proof (broadcast_value n Hwf) as Hbn.
    rewrite Hpl in Hbn.
    replace (32 - new_prefix r) with (bits_needed r) in Hbn
      by (unfold new_prefix; lia).
    assert (block_size 1 <= block_size (bits_needed r))
      by (apply block_size_le; lia).
    change (block_size 1) with 2 in *.
    assert (Hb : body P r s
                 = Continue
                     (mkState
                        (results s ++ [make_row r n (network_address n + 1)
                                         (broadcast_address n - 1)])
                        (broadcast_address n + 1))).
    { apply body_pass; try assumption; unfold new_prefix; lia. }
    simpl. rewrite Hb. apply IH.
    + eapply reaches_next; eassumption.
    + simpl. lia.
    + simpl. lia.
Qed.

End Packing.

(** X5. When a run succeeds.  On an IPv4 parent network (an
    [IPv4Network] that [ip_network] returns for a 32-bit address) and a
    list of host counts that is not empty and has no
    negative one, the table is shown without a message exactly when the
    blocks of the host counts together are no more than the addresses of
    the parent and end before 255.255.255.255: the descending order
    leaves no gap between the blocks, so nothing that fits is refused. *)
Theorem X5_success_criterion
    (a p : Z) (P : IPv4Network) (R : list Z) :
  ip_network a p = Some P ->
  Forall (fun h => 0 <= h) R ->
  R <> [] ->
  ((exists df, allocate P R = Table None df)
   <-> total_blocks R <= num_addresses P
       /\ network_address P + total_blocks R < 2 ^ 32).
Proof.
  intros HP Hnn Hne. apply ip_network_well_formed in HP.
  pose proof (sort_desc_sorted R) as Hs.
  pose proof (sort_desc_Forall _ _ Hnn) as Hnn'.
  pose proof (total_blocks_perm _ _ (sort_desc_perm R)) as Ht.
  pose proof (broadcast_value P HP) as HbP.
  pose proof (num_addresses_value P HP) as Hnum.
  split.
  - intros [df H]. apply vlsm_success in H.
    destruct H as (s & Hreach & _ & _).
    pose proof (reaches_total P HP _ Hs Hnn' _ _ Hreach) as Hcur.
    pose proof (reaches_done _ _ _ _ Hreach) as Hdone.
    rewrite app_nil_r in Hdone. rewrite <- Hdone, Ht in Hcur.
    pose proof (reaches_cursor_end _ _ _ _ HP Hreach).
    pose proof (reaches_cursor_range P HP _ _ _ Hreach). lia.
  - intros [Hfit Htop].
    destruct (for_loop_succeeds P HP _ Hs Hnn' (sort_desc R) (initial P)
                (reaches_start _ _ _)) as [s' Hloop];
      [simpl; lia | simpl; lia |].
    unfold allocate, vlsm. rewrite Hloop.
    destruct (sort_desc R) eqn:E.
    + apply sort_desc_nil in E. contradiction.
    + eexists. reflexivity.
Qed.

Lemma X5_success_criterion_witness :
  (exists df, allocate net24 [20; 100; 50] = Table None df)
  <-> total_blocks [20; 100; 50] <= num_addresses net24
      /\ network_address net24 + total_blocks [20; 100; 50] < 2 ^ 32.
Proof.
  apply (X5_success_criterion 3232235776 24 net24 [20; 100; 50]).
  - reflexivity.
  - repeat constructor; discriminate.
  - discriminate.
Defined.

(** ** The text of the host list *)

Lemma match_lf {A} (c : ascii) (s : string) (x y : A) :
  match String c s with
  | String "010"%char s'' => x
  | _ => y
  end = if Ascii.eqb c "010"%char then x else y.
Proof.
  destruct c as [[] [] [] [] [] [] [] []]; reflexivity.
Qed.

(** One step of [splitlines], with the look-ahead of the carriage return
    written with [skip_lf]. *)
Lemma splitlines_from_String line c s :
  splitlines_from line (String c s) =
    if Ascii.eqb c "013"%char then
      string_of_list_ascii (rev line) :: splitlines_from [] (skip_lf s)
    else if is_linebreak c then
      string_of_list_ascii (rev line) :: splitlines_from [] s
    else splitlines_from (c :: line) s.
Proof.
  simpl. destruct (Ascii.eqb c "013"%char); [|reflexivity].
  destruct s as [|c' s']; [reflexivity|].
  unfold skip_lf.
  destruct c' as [[] [] [] [] [] [] [] []]; reflexivity.
Qed.


Lemma filter_cons_app {A} (f : A -> bool) x l :
  filter f (x :: l) = filter f [x] ++ filter f l.
Proof. simpl. destruct (f x); reflexivity. Qed.

Lemma tokens_from_lf line t :
  tokens_from line (String "010"%char t)
  = tokens_from line EmptyString ++ tokens_from [] t.
Proof.
  unfold tokens_from. rewrite splitlines_from_String.
  change (Ascii.eqb "010"%char "013"%char) with false.
  change (is_linebreak "010"%char) with true. cbv iota.
  rewrite filter_cons_app. f_equal.
  destruct line; reflexivity.
Qed.

(** The entries of a text followed by a line feed and a second text are
    the entries of the first and then those of the second. *)
Lemma tokens_from_app_lf : forall n s,
  (String.length s <= n)%nat ->
  forall line t,
    tokens_from line (s ++ String "010"%char t)
    = tokens_from line s ++ tokens_from [] t.
Proof.
  induction n as [|n IH]; intros s Hlen line t.
  - destruct s; [|simpl in Hlen; lia]. apply tokens_from_lf.
  - destruct s as [|c s]; [apply tokens_from_lf|].
    simpl in Hlen. simpl append. unfold tokens_from in *.
    rewrite !splitlines_from_String.
    destruct (Ascii.eqb c "013"%char).
    + rewrite filter_cons_app,
        (filter_cons_app _ _ (splitlines_from [] (skip_lf s))).
      rewrite <- app_assoc. f_equal.
      destruct s as [|c' s'].
      * simpl append. unfold skip_lf.
        change (Ascii.eqb "010"%char "010"%char) with true. reflexivity.
      * simpl append. unfold skip_lf.
        destruct (Ascii.eqb c' "010"%char).
        -- apply IH. simpl in Hlen. lia.
        -- apply (IH (String c' s')). lia.
    + destruct (is_linebreak c).
      * rewrite filter_cons_app,
          (filter_cons_app _ _ (splitlines_from [] s)).
        rewrite <- app_assoc. f_equal. apply IH. lia.
      * apply IH. lia.
Qed.

Lemma replace_commas_app s t :
  replace_commas (s ++ t) = (replace_commas s ++ replace_commas t)%string.
Proof. induction s as [|c s IH]; simpl; [reflexivity|]. rewrite IH. reflexivity. Qed.

Lemma map_raise_app {A B} (f : A -> option B) l l' :
  map_raise f (l ++ l') =
    match map_raise f l, map_raise f l' with
    | Some x, Some y => Some (x ++ y)
    | _, _ => None
    end.
Proof.
  induction l as [|x l IH]; simpl.
  - destruct (map_raise f l'); reflexivity.
  - destruct (f x); [|reflexivity]. rewrite IH.
    destruct (map_raise f l), (map_raise f l'); reflexivity.
Qed.

Lemma parse_hosts_tokens s :
  parse_hosts s
  = map_raise (fun h => int (strip h)) (tokens_from [] (replace_commas s)).
Proof. reflexivity. Qed.

(** X10. The comma and the line feed separate entries in the same way, and
    the host list of two texts joined by either is the list of the first
    followed by the list of the second; a text that [int] rejects on
    either side makes the whole conversion fail (line 40). *)
Theorem X10_parse_hosts_joined (s t : string) :
  parse_hosts (s ++ String ","%char t)
  = match parse_hosts s, parse_hosts t with
    | Some x, Some y => Some (x ++ y)
    | _, _ => None
    end
  /\ parse_hosts (s ++ String "010"%char t)
     = parse_hosts (s ++ String ","%char t).
Proof.
  assert (E : forall c, replace_commas (String c EmptyString)
                        = String "010"%char EmptyString ->
              parse_hosts (s ++ String c t)
              = match parse_hosts s, parse_hosts t with
                | Some x, Some y => Some (x ++ y)
                | _, _ => None
                end).
  { intros c Hc. rewrite !parse_hosts_tokens.
    change (String c t) with (String c EmptyString ++ t)%string.
    rewrite !replace_commas_app, Hc. simpl append.
    rewrite (tokens_from_app_lf _ _ (le_n _)).
    apply map_raise_app. }
  split.
  - apply E. reflexivity.
  - rewrite !E by reflexivity. reflexivity.
Qed.













(** ** Non-strict networks and tables after a message *)

(** X12. Non-strict construction (lines 33 and 84) gives the network the
    address lies in: the address is between its network address and its
    broadcast address, and every address of that range, given with the
    same prefix length, gives the same network, the network address
    itself included. *)
Theorem X12_non_strict_network (a p : Z) (P : IPv4Network) :
  ip_network a p = Some P ->
  network_address P <= a <= broadcast_address P
  /\ ip_network (network_address P) p = Some P
  /\ (forall a', network_address P <= a' <= broadcast_address P ->
                 ip_network a' p = Some P).
Proof.
  intros H.
  pose proof (ip_network_contains _ _ _ H) as Hin.
  pose proof (ip_network_well_formed _ _ _ H) as Hwf.
  pose proof (ip_network_Some _ _ _ H) as (Ha & Hp & Hpl & Hnet).
  pose proof (broadcast_value P Hwf) as Hb. rewrite Hpl in Hb.
  pose proof (block_size_pos (32 - p) ltac:(lia)) as Hpos.
  assert (K : forall a', network_address P <= a' <= broadcast_address P ->
                         ip_network a' p = Some P).
  { intros a' Ha'.
    destruct Hwf as (_ & Hn0 & _ & Hu). rewrite Hpl in Hu.
    destruct (ip_network_total a' p ltac:(lia) Hp) as [n Hn].
    pose proof (ip_network_Some _ _ _ Hn) as (_ & _ & Hpl' & Hnet').
    assert (E : a / block_size (32 - p) = a' / block_size (32 - p)).
    { apply Z.div_unique
        with (r := a' - block_size (32 - p) * (a / block_size (32 - p)));
        [left; lia | lia]. }
    rewrite Hn. f_equal. destruct n as [na np], P as [Pa Pp].
    simpl in *. subst np Pp. f_equal. rewrite Hnet', Hnet, E. reflexivity. }
  split; [lia|]. split; [apply K; lia|exact K].
Qed.

Lemma X12_non_strict_network_witness :
  network_address net24 <= 3232235853 <= broadcast_address net24
  /\ ip_network (network_address net24) 24 = Some net24
  /\ (forall a', network_address net24 <= a' <= broadcast_address net24 ->
                 ip_network a' 24 = Some net24).
Proof.
  apply (X12_non_strict_network 3232235853 24 net24). reflexivity.
Defined.

(** The rows of any table of a run on a descending list without negative
    host counts are packed from the parent's network address. *)
Lemma vlsm_packed P L m df :
  well_formed P ->
  StronglySorted (fun x y => y <= x) L ->
  Forall (fun h => 0 <= h) L ->
  vlsm P L = Table m df ->
  exists rows,
    df = dataframe rows
    /\ packed_from (network_address P) rows
    /\ Forall (fun r => network_address (Net_IP_prefix r) <= Broadcast r)
         rows.
Proof.
  intros HP Hs Hnn H.
  apply vlsm_Table_inv in H.
  destruct H as (s & l & rows & Hreach & -> & Hcase).
  pose proof (reaches_run_inv P HP L Hs Hnn _ _ Hreach)
    as [_ Hal Hpk Hcur].
  destruct (reaches_within P HP _ _ _ Hreach) as [_ Hrows].
  assert (Hne : Forall (fun r => network_address (Net_IP_prefix r)
                                 <= Broadcast r) (results s)).
  { revert Hrows. apply Forall_impl. unfold row_within. tauto. }
  destruct Hcase as [(_ & _ & ->)|[(e & r & l' & s' & _ & _ & _ & _ & ->)|
    (r & l' & n & _ & -> & Hc & _ & _ & ->)]].
  - exists (results s). auto.
  - exists (results s). auto.
  - exists (results s ++ [make_row r n (network_address n + 1)
                            (broadcast_address n - 1)]).
    apply candidate_Some in Hc. destruct Hc as (Hfit & Hpre & Hn).
    pose proof (ip_network_well_formed _ _ _ Hn) as Hwf.
    pose proof (ip_network_Some _ _ _ Hn) as (_ & Hnp & _ & _).
    assert (Hnet : network_address n = current_ip s).
    { apply (ip_network_aligned _ _ _ Hn).
      replace (32 - new_prefix r) with (bits_needed r)
        by (unfold new_prefix; lia).
      apply Hal; [left; reflexivity | exact Hfit]. }
    split; [reflexivity|]. split.
    + apply packed_from_snoc; [exact Hpk|].
      rewrite make_row_Net, Hcur. exact Hnet.
    + apply Forall_app. split; [exact Hne|].
      constructor; [|constructor].
      rewrite make_row_Net, make_row_Broadcast, (broadcast_value n Hwf).
      destruct Hwf as (Hp' & _).
      pose proof (block_size_pos (32 - prefixlen n) ltac:(lia)). lia.
Qed.

(** X13. Also a table shown after a message is packed.  On a parent
    network that [ip_network] returns and host counts that are not
    negative, the rows of every table start at the parent's network
    address, each next row starts at the broadcast address of the row
    before plus 1, and no two rows share an address. *)
Theorem X13_every_table_packed
    (a p : Z) (P : IPv4Network) (R : list Z) (m : option message)
    (df : list table_row) :
  ip_network a p = Some P ->
  Forall (fun h => 0 <= h) R ->
  allocate P R = Table m df ->
  (forall r, nth_error df 0 = Some (Record_row r) ->
     network_address (Net_IP_prefix r) = network_address P)
  /\ (forall i r1 r2,
        nth_error df i = Some (Record_row r1) ->
        nth_error df (S i) = Some (Record_row r2) ->
        network_address (Net_IP_prefix r2) = Broadcast r1 + 1)
  /\ (forall i j r1 r2,
        i <> j ->
        nth_error df i = Some (Record_row r1) ->
        nth_error df j = Some (Record_row r2) ->
        ~ overlap r1 r2).
Proof.
  intros HP Hnn H. apply ip_network_well_formed in HP.
  unfold allocate in H.
  apply (vlsm_packed P _ m df HP (sort_desc_sorted R)
           (sort_desc_Forall _ _ Hnn)) in H.
  destruct H as (rows & -> & Hpk & Hne).
  split; [|split].
  - intros r E. apply dataframe_nth in E.
    apply (packed_from_start _ rows); [exact Hpk|].
    destruct rows; [discriminate|exact E].
  - intros i r1 r2 E1 E2. apply dataframe_nth in E1, E2.
    apply (packed_from_next _ _ _ _ _ Hpk E1 E2).
  - intros i j r1 r2 Hij E1 E2 (x & [L1 U1] & [L2 U2]).
    apply dataframe_nth in E1, E2.
    destruct (Nat.lt_total i j) as [Hlt|[Heq|Hgt]]; [|contradiction|].
    + pose proof (packed_from_ordered _ _ _ _ _ _ Hpk Hne Hlt E1 E2). lia.
    + pose proof (packed_from_ordered _ _ _ _ _ _ Hpk Hne Hgt E2 E1). lia.
Qed.

Lemma X13_every_table_packed_witness :
  (forall r,
      nth_error [Record_row row_100_first; Record_row row_100_second] 0
      = Some (Record_row r) ->
      network_address (Net_IP_prefix r) = network_address net24)
  /\ (forall i r1 r2,
        nth_error [Record_row row_100_first; Record_row row_100_second] i
        = Some (Record_row r1) ->
        nth_error [Record_row row_100_first; Record_row row_100_second] (S i)
        = Some (Record_row r2) ->
        network_address (Net_IP_prefix r2) = Broadcast r1 + 1)
  /\ (forall i j r1 r2,
        i <> j ->
        nth_error [Record_row row_100_first; Record_row row_100_second] i
        = Some (Record_row r1) ->
        nth_error [Record_row row_100_first; Record_row row_100_second] j
        = Some (Record_row r2) ->
        ~ overlap r1 r2).
Proof.
  apply (X13_every_table_packed 3232235776 24 net24 [100; 100; 100]
           (Some (Allocation_error_boundary 100 (mkNetwork 3232236032 25)))).
  - reflexivity.
  - repeat constructor; discriminate.
  - vm_compute. reflexivity.
Defined.

(** X14. The boundary message of line 88 names the first host count of
    the descending list whose block no longer fits: on host counts that
    are not negative, the blocks of the host counts before it are inside
    the parent and have their rows in the table, the subnet in the message
    starts right after them, and with its block the total exceeds the
    number of addresses of the parent. *)
Theorem X14_boundary_message
    (a p : Z) (P : IPv4Network) (R : list Z) (r : Z) (n : IPv4Network)
    (df : list table_row) :
  ip_network a p = Some P ->
  Forall (fun h => 0 <= h) R ->
  allocate P R = Table (Some (Allocation_error_boundary r n)) df ->
  exists rows rest,
    df = dataframe rows
    /\ sort_desc R = map Requested rows ++ r :: rest
    /\ network_address n
       = network_address P + total_blocks (map Requested rows)
    /\ prefixlen n = new_prefix r
    /\ total_blocks (map Requested rows) <= num_addresses P
    /\ num_addresses P < total_blocks (map Requested rows ++ [r]).
Proof.
  intros HP Hnn H. apply ip_network_well_formed in HP.
  pose proof (sort_desc_sorted R) as Hs.
  pose proof (sort_desc_Forall _ _ Hnn) as Hnn'.
  unfold allocate in H. apply vlsm_Table_inv in H.
  destruct H as (s & l & rows & Hreach & -> & Hcase).
  destruct Hcase as [(E & _)|[(e & r' & l' & s' & E & -> & Hb & _ & ->)|
    (r' & l' & n' & E & _)]]; try discriminate E.
  inversion E; subst e; clear E.
  apply body_Break in Hb.
  destruct Hb as [_ [(E & _)|[(n' & E & Hfit & Hc & Hgt & _)|(E & _)]]];
    try discriminate E.
  inversion E; subst r' n'; clear E.
  pose proof (reaches_done _ _ _ _ Hreach) as Hdone.
  pose proof (reaches_total P HP _ Hs Hnn' _ _ Hreach) as Hcur.
  pose proof (reaches_cursor_end _ _ _ _ HP Hreach) as Hend.
  pose proof (reaches_run_inv P HP _ Hs Hnn' _ _ Hreach) as [_ Hal _ _].
  apply candidate_Some in Hc. destruct Hc as (_ & Hpre & Hn).
  pose proof (ip_network_well_formed _ _ _ Hn) as Hwf.
  pose proof (ip_network_Some _ _ _ Hn) as (_ & Hnp & Hpl & _).
  assert (Hbits : 32 - new_prefix r = bits_needed r)
    by (unfold new_prefix; lia).
  assert (Hnet : network_address n = current_ip s).
  { apply (ip_network_aligned _ _ _ Hn). rewrite Hbits.
    apply Hal; [left; reflexivity | exact Hfit]. }
  pose proof (broadcast_value n Hwf) as Hbn. rewrite Hpl, Hbits in Hbn.
  pose proof (broadcast_value P HP) as HbP.
  pose proof (num_addresses_value P HP) as Hnum.
  exists (results s), l'.
  split; [reflexivity|]. split; [exact Hdone|].
  split; [lia|]. split; [exact Hpl|].
  rewrite total_blocks_app. simpl. lia.
Qed.

Lemma X14_boundary_message_witness :
  exists rows rest,
    [Record_row row_100_first; Record_row row_100_second] = dataframe rows
    /\ sort_desc [100; 100; 100] = map Requested rows ++ 100 :: rest
    /\ network_address (mkNetwork 3232236032 25)
       = network_address net24 + total_blocks (map Requested rows)
    /\ prefixlen (mkNetwork 3232236032 25) = new_prefix 100
    /\ total_blocks (map Requested rows) <= num_addresses net24
    /\ num_addresses net24 < total_blocks (map Requested rows ++ [100]).
Proof.
  apply (X14_boundary_message 3232235776 24 net24 [100; 100; 100]).
  - reflexivity.
  - repeat constructor; discriminate.
  - vm_compute. reflexivity.
Defined.

(** ** Guard failures and the records delivered *)

(** The guard of line 63 can only fail before any row has been made. *)
Lemma space_break_first_pass P L s r l s' :
  StronglySorted (fun x y => y <= x) L ->
  reaches P (initial P) L s (r :: l) ->
  body P r s = Break (Allocation_error_space r) s' ->
  results s = [] /\ results s' = [].
Proof.
  intros Hs Hreach Hb. apply body_Break in Hb.
  destruct Hb as [_ [(_ & Hlt & Hres)|[(n & E & _)|(E & _)]]];
    try discriminate E.
  assert (Hnil : results s = []).
  { destruct (results s) as [|y ys] eqn:Er; [reflexivity|exfalso].
    pose proof (reaches_space P _ _ _ Hs Hreach) as Hsp.
    rewrite Er in Hsp. specialize (Hsp ltac:(discriminate)).
    inversion Hsp; subst. lia. }
  split; [exact Hnil|]. rewrite Hres. exact Hnil.
Qed.

(** C5, as the code has it.  When a guard fails in the pass for the host
    count [r], after the passes that led to state [s]:
    on the prefix error the function returns and no table is delivered;
    on the allocation error of line 64 no row has been made (the guard
    can only fail in the first pass) and the table delivered is the
    placeholder row, without any record;
    on the boundary error of line 88 the loop is left by [break],
    [results] stays as it was, and the table delivered after the message
    is the table of the rows made before the failure, one for each host
    count already processed (the placeholder row when there is none). *)
Theorem C5_records_after_guard_failure
    (P : IPv4Network) (R : list Z) (s : state) (r : Z) (l : list Z) :
  reaches P (initial P) (sort_desc R) s (r :: l) ->
  (forall m, body P r s = Return m -> allocate P R = No_table m)
  /\ (forall s',
        body P r s = Break (Allocation_error_space r) s' ->
        results s = []
        /\ allocate P R = Table (Some (Allocation_error_space r)) [Error_row])
  /\ (forall n s',
        body P r s = Break (Allocation_error_boundary r n) s' ->
        allocate P R
        = Table (Some (Allocation_error_boundary r n))
            (dataframe (results s))
        /\ sort_desc R = map Requested (results s) ++ r :: l
        /\ (results s <> [] ->
            dataframe (results s) = map Record_row (results s))
        /\ (results s = [] -> dataframe (results s) = [Error_row])).
Proof.
  intros Hreach.
  pose proof (for_loop_from _ _ _ _ _ Hreach) as Hloop.
  pose proof (reaches_done _ _ _ _ Hreach) as Hdone.
  pose proof (sort_desc_sorted R) as Hs.
  assert (Hrun : forall m s', body P r s = Break m s' ->
                   allocate P R = Table (Some m) (dataframe (results s'))).
  { intros m s' Hb. unfold allocate, vlsm. rewrite Hloop.
    destruct (sort_desc R) as [|x L] eqn:EL.
    - destruct (map Requested (results s)); discriminate Hdone.
    - simpl. rewrite Hb. reflexivity. }
  split; [|split].
  - intros m Hb. unfold allocate, vlsm. rewrite Hloop.
    destruct (sort_desc R) as [|x L] eqn:EL.
    + destruct (map Requested (results s)); discriminate Hdone.
    + simpl. rewrite Hb. reflexivity.
  - intros s' Hb.
    destruct (space_break_first_pass _ _ _ _ _ _ Hs Hreach Hb) as [H1 H2].
    split; [exact H1|]. rewrite (Hrun _ _ Hb), H2. reflexivity.
  - intros n s' Hb. rewrite (Hrun _ _ Hb).
    apply body_Break in Hb.
    destruct Hb as [_ [(E & _)|[(n' & _ & _ & _ & _ & Hres)|(E & _)]]];
      try discriminate E.
    rewrite Hres. split; [reflexivity|]. split; [exact Hdone|].
    split.
    + intros Hne. unfold dataframe.
      destruct (results s); [contradiction|reflexivity].
    + intros ->. reflexivity.
Qed.

Lemma C5_records_after_guard_failure_witness :
  allocate net24 [100; 100; 100]
  = Table (Some (Allocation_error_boundary 100 (mkNetwork 3232236032 25)))
      (dataframe (results after_two))
  /\ sort_desc [100; 100; 100] = map Requested (results after_two) ++ [100]
  /\ (results after_two <> [] ->
      dataframe (results after_two) = map Record_row (results after_two))
  /\ (results after_two = [] -> dataframe (results after_two) = [Error_row]).
Proof.
  apply (C5_records_after_guard_failure net24 [100; 100; 100] after_two
           100 [] reaches_after_two) with (s' := after_two).
  vm_compute. reflexivity.
Defined.

(** C3 on the code: the host text [10, 0, -5] goes through without a
    message on 192.168.1.0/24, and the table is not packed: the row for 0
    is 192.168.1.16/31, the row for -5 is 192.168.1.16/29, they share the
    address 192.168.1.16, and the third row does not start at the second
    row's broadcast address plus 1. *)
Theorem C3_rows_overlap_on_negative_count :
  let r10 := mkRow 10 (mkNetwork 3232235776 28) 4294967280
               (Host 3232235777) (Host 3232235790) 3232235791 14 in
  let r0 := mkRow 0 (mkNetwork 3232235792 31) 4294967294
              (Host 3232235793) (Host 3232235792) 3232235793 2 in
  let r5 := mkRow (-5) (mkNetwork 3232235792 29) 4294967288
              (Host 3232235793) (Host 3232235798) 3232235799 6 in
  skuska (Cidr 3232235776 24) "10, 0, -5"
  = Table None [Record_row r10; Record_row r0; Record_row r5]
  /\ overlap r0 r5
  /\ network_address (Net_IP_prefix r5) <> Broadcast r0 + 1.
Proof.
  intros r10 r0 r5. split; [vm_compute; reflexivity|]. split.
  - exists 3232235792. unfold covers, r0, r5. simpl. lia.
  - unfold r0, r5. simpl. lia.
Qed.
